(** * Emotion stabilizer: a shallow embedding of [EmotionAnalyzer]

    The development follows [emotion_analyzer.py].  The analyzer object is a
    record threaded through a small state-and-exception monad; the three
    foreign libraries (OpenCV, DeepFace, logging) are represented by a record
    of externals and a trace of the calls made to them.

    Scores are Python floats in the program.  The first embedding idealises
    them as exact rationals ([Q]), with equalities between confidences stated
    with [==]; it carries the statements on the shape of a call: its range,
    its failures, its history and its foreign calls.  The module [Float64]
    embeds the program once more on binary64 floats, with the IEEE arithmetic
    and comparisons, and carries the statements on which label a call picks
    and which pair it returns. *)

From Stdlib Require Import QArith Floats.
From stdpp Require Import gmap strings list.

#[local] Set Warnings "-inexact-float".

Local Open Scope string_scope.
Local Open Scope list_scope.

(** ** Exceptions and outcomes *)

Inductive exn : Type :=
| IndexError
| KeyError (key : string)
| ValueError
| ForeignError (msg : string).

(** [str(e)] as used in the log messages.  The texts stand for Python's own;
    no statement depends on them. *)
Definition str (e : exn) : string :=
  match e with
  | IndexError => "index out of range"
  | KeyError key => key
  | ValueError => "max() arg is an empty sequence"
  | ForeignError msg => msg
  end.

Inductive outcome (A : Type) : Type :=
| Return (a : A)
| Raise (e : exn).
Arguments Return {A} a.
Arguments Raise {A} e.

(** ** Images *)

(** A numpy array as far as the analyzer looks at it: its shape and its
    flattened buffer. *)
Record ndarray : Type := {
  shape : list nat;
  buffer : list Z
}.

(** [img.size]: the product of the dimensions. *)
Definition size (img : ndarray) : nat := foldr Nat.mul 1%nat (shape img).

(** [img.shape[i]] *)
Definition shape_at (img : ndarray) (i : nat) : outcome nat :=
  match shape img !! i with
  | Some n => Return n
  | None => Raise IndexError
  end.

(** ** The analyzer object and the outside world *)

Record EmotionAnalyzer : Type := {
  emotions : list string;
  previous_emotions : list string;
  smooth_window : nat;
  emotion_weights : gmap string Q
}.

(** [EmotionAnalyzer.__init__] *)
Definition init : EmotionAnalyzer := {|
  emotions := ["angry"; "disgust"; "fear"; "happy"; "sad"; "surprise"; "neutral"];
  previous_emotions := [];
  smooth_window := 2;
  emotion_weights :=
    <["sad" := 12 # 10]> (<["disgust" := 12 # 10]> (<["angry" := 11 # 10]>
    (<["fear" := 11 # 10]> (<["happy" := 9 # 10]> (<["neutral" := 8 # 10]>
    (<["surprise" := 1%Q]> ∅))))))
|}.

Inductive backend : Type := DefaultBackend | OpenCV.

(** One raw score mapping, [result[0]['emotion']]. *)
Abbreviation scores := (gmap string Q).

Inductive event : Type :=
| LogWarning (msg : string)
| LogError (msg : string)
| CallResize (img : ndarray) (dsize : nat * nat)
| CallAnalyze (detector : backend) (img : ndarray).

(** The behaviour of the foreign functions during one call.  [cv2_clahe_lab]
    stands for the chain cvtColor / split / CLAHE / merge / cvtColor of
    [enhance_contrast]; [DeepFace_analyze] returns the list of per-face
    results, each identified with its ['emotion'] mapping. *)
Record externals : Type := {
  cv2_resize : ndarray -> nat * nat -> outcome ndarray;
  cv2_clahe_lab : ndarray -> outcome ndarray;
  DeepFace_analyze : backend -> ndarray -> outcome (list scores)
}.

Record world : Type := {
  self : EmotionAnalyzer;
  trace : list event
}.

(** ** The monad *)

Definition M (A : Type) : Type := world -> outcome A * world.

Definition ret {A} (a : A) : M A := fun w => (Return a, w).

Definition raise {A} (e : exn) : M A := fun w => (Raise e, w).

Definition bind {A B} (m : M A) (k : A -> M B) : M B :=
  fun w =>
    match m w with
    | (Return a, w') => k a w'
    | (Raise e, w') => (Raise e, w')
    end.

(** [try: m except Exception as e: h e] *)
Definition try_except {A} (m : M A) (h : exn -> M A) : M A :=
  fun w =>
    match m w with
    | (Return a, w') => (Return a, w')
    | (Raise e, w') => h e w'
    end.

Definition lift {A} (o : outcome A) : M A := fun w => (o, w).

Definition emit (ev : event) : M unit :=
  fun w => (Return tt, {| self := self w; trace := trace w ++ [ev] |}).

Definition get_self : M EmotionAnalyzer := fun w => (Return (self w), w).

Definition with_previous_emotions (obj : EmotionAnalyzer) (l : list string)
  : EmotionAnalyzer :=
  {| emotions := emotions obj;
     previous_emotions := l;
     smooth_window := smooth_window obj;
     emotion_weights := emotion_weights obj |}.

Definition set_previous_emotions (l : list string) : M unit :=
  fun w =>
    (Return tt, {| self := with_previous_emotions (self w) l; trace := trace w |}).

Declare Scope py_scope.
Delimit Scope py_scope with py.
Notation "x <- m ;; k" := (bind m (fun x => k))
  (at level 100, m at next level, right associativity) : py_scope.
Notation "m ;;; k" := (bind m (fun _ => k))
  (at level 100, right associativity) : py_scope.
Local Open Scope py_scope.

(** ** Python built-ins used by the analyzer *)

Definition Qltb (a b : Q) : bool :=
  match (a ?= b)%Q with
  | Lt => true
  | _ => false
  end.

(** [max(iterable, key=...)]: the running best is replaced only by a strictly
    larger item, so the first maximum wins.  [lt a b] is [key(b) > key(a)]. *)
Fixpoint max_from {A} (lt : A -> A -> bool) (best : A) (l : list A) : A :=
  match l with
  | [] => best
  | x :: l' => max_from lt (if lt best x then x else best) l'
  end.

Definition py_max {A} (lt : A -> A -> bool) (l : list A) : outcome A :=
  match l with
  | [] => Raise ValueError
  | x :: l' => Return (max_from lt x l')
  end.

(** [key=lambda x: x[1]] on the items of a score dict. *)
Definition by_value (a b : string * Q) : bool := Qltb (snd a) (snd b).

(** [key=itemgetter(1)] on the items of a [Counter]. *)
Definition by_count (a b : string * nat) : bool := (snd a <? snd b)%nat.

(** [d[k] = v] on an insertion-ordered dict. *)
Fixpoint dict_set {V} (d : list (string * V)) (k : string) (v : V) : list (string * V) :=
  match d with
  | [] => [(k, v)]
  | (k', v') :: d' =>
      if decide (k' = k) then (k', v) :: d' else (k', v') :: dict_set d' k v
  end.

(** [d[k]] *)
Fixpoint dict_get {V} (d : list (string * V)) (k : string) : outcome V :=
  match d with
  | [] => Raise (KeyError k)
  | (k', v') :: d' => if decide (k' = k) then Return v' else dict_get d' k
  end.

(** [sum(values)] *)
Definition py_sum (values : list Q) : Q := fold_left Qplus values 0%Q.

(** [d.get(k, default)] *)
Definition dict_get_default {V} (d : list (string * V)) (k : string) (dflt : V) : V :=
  match dict_get d k with
  | Return v => v
  | Raise _ => dflt
  end.

(** [Counter(l)]: each element does [c[k] = c.get(k, 0) + 1], so the keys
    stand in order of first occurrence. *)
Definition count_one (c : list (string * nat)) (k : string) : list (string * nat) :=
  dict_set c k (dict_get_default c k 0 + 1)%nat.

Definition Counter (l : list string) : list (string * nat) :=
  fold_left count_one l [].

(** [c.most_common(1)]: [max] over the items with an empty default, hence at
    most one item, the first with the largest count. *)
Definition most_common1 (c : list (string * nat)) : list (string * nat) :=
  match py_max by_count c with
  | Return x => [x]
  | Raise _ => []
  end.

(** [l[0]] *)
Definition index0 {A} (l : list A) : outcome A :=
  match l with
  | [] => Raise IndexError
  | x :: _ => Return x
  end.

(** ** Calls to the foreign libraries *)

Definition call_resize (env : externals) (img : ndarray) (dsize : nat * nat) : M ndarray :=
  emit (CallResize img dsize);;;
  lift (cv2_resize env img dsize).

Definition call_analyze (env : externals) (detector : backend) (img : ndarray)
  : M (list scores) :=
  emit (CallAnalyze detector img);;;
  lift (DeepFace_analyze env detector img).

(** ** [EmotionAnalyzer.enhance_contrast] *)

Definition enhance_contrast (env : externals) (img : ndarray) : outcome ndarray :=
  if decide (length (shape img) = 3%nat) then cv2_clahe_lab env img
  else Return img.

(** ** [EmotionAnalyzer.analyze_emotion] *)

Definition min_size : nat := 96.

(** Lines 58-61: the size test short-circuits on the height. *)
Definition ensure_min_size (env : externals) (face_img : ndarray) : M ndarray :=
  h <- lift (shape_at face_img 0);;
  small <- (if (h <? min_size)%nat then ret true
            else w <- lift (shape_at face_img 1);; ret (w <? min_size)%nat);;
  if small : bool then call_resize env face_img (min_size, min_size)
  else ret face_img.

(** Lines 68-78 and 80-91: one guarded attempt; a failure is logged and the
    list of results is left as it was. *)
Definition attempt (env : externals) (detector : backend) (label : string)
    (face_img : ndarray) (results : list scores) : M (list scores) :=
  try_except
    (result <- call_analyze env detector face_img;;
     first <- lift (index0 result);;
     ret (results ++ [first]))
    (fun e => emit (LogWarning (label +:+ " attempt failed: " +:+ str e));;;
              ret results).

(** Lines 58-64. *)
Definition preprocess (env : externals) (face_img : ndarray) : M ndarray :=
  face_img <- ensure_min_size env face_img;;
  lift (enhance_contrast env face_img).

(** Lines 58-91: everything between the validation and the emptiness test. *)
Definition classify (env : externals) (face_img : ndarray) : M (list scores) :=
  face_img <- preprocess env face_img;;
  results <- attempt env DefaultBackend "First" face_img [];;
  attempt env OpenCV "Second" face_img results.

(** Lines 99-100: the mean of one label over the collected results. *)
Definition mean_score (results : list scores) (emotion : string) : Q :=
  let values := map (fun r : scores => default 0%Q (r !! emotion)) results in
  (py_sum values / inject_Z (Z.of_nat (length values)))%Q.

(** Line 100: one round of the loop over the labels. *)
Definition average_step (results : list scores) (avg_emotions : list (string * Q))
    (emotion : string) : list (string * Q) :=
  dict_set avg_emotions emotion (mean_score results emotion).

(** Lines 97-100. *)
Definition average_scores (emotions : list string) (results : list scores)
  : list (string * Q) :=
  fold_left (average_step results) emotions [].

(** Lines 103-106. *)
Definition weigh (weights : gmap string Q) (avg_emotions : list (string * Q))
  : list (string * Q) :=
  map (fun item : string * Q =>
         (fst item, (snd item * default 1%Q (weights !! fst item))%Q))
      avg_emotions.

(** Lines 112-114. *)
Definition push_history (window : nat) (history : list string) (label : string)
  : list string :=
  let history := history ++ [label] in
  if (window <? length history)%nat then drop 1 history else history.

(** Lines 118-124. *)
Definition smooth (history : list string) (dominant_emotion : string * Q)
    (avg_emotions : list (string * Q)) : outcome (string * Q) :=
  match history with
  | _ :: _ =>
      match index0 (most_common1 (Counter history)) with
      | Return top =>
          let smoothed_emotion := fst top in
          match dict_get avg_emotions smoothed_emotion with
          | Return v => Return (smoothed_emotion, (v / 100)%Q)
          | Raise e => Raise e
          end
      | Raise e => Raise e
      end
  | [] =>
      let smoothed_emotion := fst dominant_emotion in
      match dict_get avg_emotions smoothed_emotion with
      | Return v => Return (smoothed_emotion, (v / 100)%Q)
      | Raise e => Raise e
      end
  end.

(** Lines 127-135. *)
Definition subtle_check (avg_emotions : list (string * Q)) (smoothed : string * Q)
  : outcome (string * Q) :=
  if decide (fst smoothed = "neutral") then
    if Qltb (snd smoothed) (6 # 10) then
      let other_emotions :=
        filter (fun item : string * Q => fst item <> "neutral") avg_emotions in
      match other_emotions with
      | _ :: _ =>
          match py_max by_value other_emotions with
          | Return next_emotion =>
              if Qltb 20 (snd next_emotion)
              then Return (fst next_emotion, (snd next_emotion / 100)%Q)
              else Return smoothed
          | Raise e => Raise e
          end
      | [] => Return smoothed
      end
    else Return smoothed
  else Return smoothed.

(** Lines 96-135: from the collected results to the returned pair. *)
Definition stabilize (results : list scores) : M (string * Q) :=
  obj <- get_self;;
  let avg_emotions := average_scores (emotions obj) results in
  let weighted_emotions := weigh (emotion_weights obj) avg_emotions in
  dominant_emotion <- lift (py_max by_value weighted_emotions);;
  set_previous_emotions
    (push_history (smooth_window obj) (previous_emotions obj) (fst dominant_emotion));;;
  obj <- get_self;;
  smoothed <- lift (smooth (previous_emotions obj) dominant_emotion avg_emotions);;
  lift (subtle_check avg_emotions smoothed).

(** The [try] block, lines 54-135. *)
Definition analyze_body (env : externals) (face_img : option ndarray) : M (string * Q) :=
  match face_img with
  | None => ret ("neutral", 0%Q)
  | Some face_img =>
      if decide (size face_img = 0%nat) then ret ("neutral", 0%Q)
      else
        results <- classify env face_img;;
        match results with
        | [] => ret ("neutral", 0%Q)
        | _ :: _ => stabilize results
        end
  end.

Definition analyze_emotion (env : externals) (face_img : option ndarray) : M (string * Q) :=
  try_except (analyze_body env face_img)
    (fun e => emit (LogError ("Error in emotion analysis: " +:+ str e));;;
              ret ("neutral", 1 # 10)).

(** Successive frames: each frame comes with the behaviour the foreign
    libraries show during its call. *)
Definition frame : Type := externals * option ndarray.

Definition run_frames (frames : list frame) (w : world) : world :=
  fold_left (fun w f => snd (analyze_emotion (fst f) (snd f) w)) frames w.

Definition fresh : world := {| self := init; trace := [] |}.

(** ** Observations used in the statements *)

(** The dominant pick of line 109 for given results. *)
Definition dominant_pick (obj : EmotionAnalyzer) (results : list scores)
  : outcome (string * Q) :=
  py_max by_value (weigh (emotion_weights obj) (average_scores (emotions obj) results)).

(** The candidate label of a frame: defined when the call gets as far as
    line 109, that is, when the image is present and not empty, nothing raises
    before the attempts, and at least one attempt succeeds. *)
Definition frame_candidate (f : frame) (w : world) : option string :=
  match snd f with
  | None => None
  | Some face_img =>
      if decide (size face_img = 0%nat) then None
      else
        match classify (fst f) face_img w with
        | (Return (r :: results), w1) =>
            match dominant_pick (self w1) (r :: results) with
            | Return dominant_emotion => Some (fst dominant_emotion)
            | Raise _ => None
            end
        | _ => None
        end
  end.

(** An attempt fails when the classifier raises or returns no face. *)
Definition attempt_fails (env : externals) (detector : backend) (img : ndarray) : Prop :=
  match DeepFace_analyze env detector img with
  | Return (_ :: _) => False
  | _ => True
  end.

(** What one attempt writes to the log. *)
Definition attempt_log (label : string) (o : outcome (list scores)) : list event :=
  match o with
  | Return (_ :: _) => []
  | Return [] => [LogWarning (label +:+ " attempt failed: " +:+ str IndexError)]
  | Raise e => [LogWarning (label +:+ " attempt failed: " +:+ str e)]
  end.

(** All raw scores the classifier can answer lie in [0,100]. *)
Definition bounded_scores (env : externals) : Prop :=
  forall detector img rs (r : scores) k v,
    DeepFace_analyze env detector img = Return rs ->
    r ∈ rs -> r !! k = Some v -> (0 <= v /\ v <= 100)%Q.

(** How often a label occurs in the history. *)
Definition occurrences (history : list string) (label : string) : nat :=
  count_occ String.eq_dec history label.

(** The counter of a list: one entry per label, holding its number of
    occurrences, in order of first occurrence. *)
Record counter_of (h : list string) (c : list (string * nat)) : Prop := {
  counter_NoDup : NoDup c.*1;
  counter_count : forall k n, (k, n) ∈ c -> n = occurrences h k;
  counter_keys : forall k, k ∈ h -> k ∈ c.*1;
  counter_order : forall c1 e c2, c = c1 ++ e :: c2 ->
    exists p q, h = p ++ e.1 :: q /\ forall y, y ∈ p -> y ∈ c1.*1
}.

(** The world after some more events. *)
Definition add_events (w : world) (evs : list event) : world :=
  {| self := self w; trace := trace w ++ evs |}.

(** A computation that leaves the analyzer object alone. *)
Definition keeps_self {A} (m : M A) : Prop :=
  forall w, self (snd (m w)) = self w.

(** What one attempt adds to [results]. *)
Definition first_face (o : outcome (list scores)) : list scores :=
  match o with
  | Return (r :: _) => [r]
  | _ => []
  end.

(** The state of an analyzer that was built by [__init__] and then only used
    through [analyze_emotion]. *)
Record healthy (obj : EmotionAnalyzer) : Prop := {
  healthy_emotions : emotions obj = emotions init;
  healthy_window : smooth_window obj = 2%nat;
  healthy_length : (length (previous_emotions obj) <= 2)%nat;
  healthy_labels : forall x, x ∈ previous_emotions obj -> x ∈ emotions init
}.

(** ** Sample inputs *)

Definition grid (h w : nat) : ndarray := {| shape := [h; w; 3%nat]; buffer := [] |}.

(** OpenCV behaves; both detectors answer one face with the given scores. *)
Definition steady (r : list (string * Q)) : externals := {|
  cv2_resize := fun img dsize =>
    Return {| shape := [snd dsize; fst dsize; 3%nat]; buffer := buffer img |};
  cv2_clahe_lab := fun img => Return img;
  DeepFace_analyze := fun _ _ => Return [list_to_map r]
|}.

(** OpenCV behaves; both detectors raise. *)
Definition blind : externals := {|
  cv2_resize := fun img dsize =>
    Return {| shape := [snd dsize; fst dsize; 3%nat]; buffer := buffer img |};
  cv2_clahe_lab := fun img => Return img;
  DeepFace_analyze := fun _ _ => Raise (ForeignError "no model")
|}.

(** A 48 x 200 colour image and a one-dimensional array. *)
Definition narrow : ndarray := {| shape := [48; 200; 3]%nat; buffer := [] |}.
Definition flat : ndarray := {| shape := [200%nat]; buffer := [] |}.

Definition mostly_neutral : list (string * Q) :=
  [("neutral", 55 # 1); ("sad", 25 # 1); ("happy", 5 # 1); ("angry", 5 # 1);
   ("fear", 4 # 1); ("surprise", 3 # 1); ("disgust", 3 # 1)]%Q.

Definition sad_happy_tie : list (string * Q) :=
  [("sad", 50 # 1); ("happy", 50 # 1)]%Q.

Definition mostly (label : string) : list (string * Q) :=
  [(label, 90 # 1)]%Q.

(** The two results collected when both detectors give the same answer, and
    the world after the two classifier calls on a 100 x 100 image. *)
Definition twice (r : list (string * Q)) : list scores :=
  [list_to_map r; list_to_map r].

Definition seen : world :=
  add_events fresh
    [CallAnalyze DefaultBackend (grid 100 100); CallAnalyze OpenCV (grid 100 100)].

Definition happy_frame : frame := (steady (mostly "happy"), Some (grid 100 100)).
Definition sad_frame : frame := (steady (mostly "sad"), Some (grid 100 100)).
Definition angry_frame : frame := (steady (mostly "angry"), Some (grid 100 100)).

(** ** The presentation lookups

    [get_emotion_color], [get_emotion_emoji] and [get_emotion_description]
    build a dict literal and call [.get] with a default.  Colours are BGR
    triples; a Python string is held as its UTF-8 bytes.  The float format
    [{confidence:.0%}] is Python's own and is taken as a function. *)

Definition color_map : list (string * (Z * Z * Z)) :=
  [("happy", (0, 255, 255)%Z);
   ("sad", (255, 128, 0)%Z);
   ("angry", (0, 0, 255)%Z);
   ("surprise", (255, 255, 0)%Z);
   ("fear", (255, 0, 255)%Z);
   ("disgust", (0, 255, 0)%Z);
   ("neutral", (255, 255, 255)%Z);
   ("unknown", (128, 128, 128)%Z)].

Definition get_emotion_color (emotion : string) : Z * Z * Z :=
  dict_get_default color_map emotion (128, 128, 128)%Z.

Definition emoji_map : list (string * string) :=
  [("happy", "😄");
   ("sad", "😢");
   ("angry", "😡");
   ("surprise", "😮");
   ("fear", "😨");
   ("disgust", "🤢");
   ("neutral", "😐");
   ("unknown", "❓")].

Definition get_emotion_emoji (emotion : string) : string :=
  dict_get_default emoji_map emotion "❓".

Definition descriptions (format_percent : Q -> string) (confidence : Q)
  : list (string * string) :=
  [("happy", "Happy (" +:+ format_percent confidence +:+ " confidence)");
   ("sad", "Sad (" +:+ format_percent confidence +:+ " confidence)");
   ("angry", "Angry (" +:+ format_percent confidence +:+ " confidence)");
   ("surprise", "Surprised (" +:+ format_percent confidence +:+ " confidence)");
   ("fear", "Afraid (" +:+ format_percent confidence +:+ " confidence)");
   ("disgust", "Disgusted (" +:+ format_percent confidence +:+ " confidence)");
   ("neutral", "Neutral (" +:+ format_percent confidence +:+ " confidence)");
   ("unknown", "Unable to determine emotion")].

Definition get_emotion_description (format_percent : Q -> string)
    (emotion : string) (confidence : Q) : string :=
  dict_get_default (descriptions format_percent confidence) emotion
    "Unable to determine emotion".

(** ** Observations on the trace *)

(** The classifier calls among some events, in order. *)
Definition analyze_calls (evs : list event) : list (backend * ndarray) :=
  omap (fun ev => match ev with
                  | CallAnalyze detector img => Some (detector, img)
                  | _ => None
                  end) evs.

(** The calls to [cv2.resize] among some events, in order. *)
Definition resize_calls (evs : list event) : list (ndarray * (nat * nat)) :=
  omap (fun ev => match ev with
                  | CallResize img dsize => Some (img, dsize)
                  | _ => None
                  end) evs.

(** The warnings among some events, in order. *)
Definition warnings (evs : list event) : list string :=
  omap (fun ev => match ev with
                  | LogWarning msg => Some msg
                  | _ => None
                  end) evs.

(** Two score dicts with the same keys in the same order and equal values. *)
Definition same_scores (a b : list (string * Q)) : Prop :=
  Forall2 (fun x y : string * Q => fst x = fst y /\ (snd x == snd y)%Q) a b.


(** The default detector raises, the other one answers one face. *)
Definition one_eyed (r : list (string * Q)) : externals := {|
  cv2_resize := fun img dsize =>
    Return {| shape := [snd dsize; fst dsize; 3%nat]; buffer := buffer img |};
  cv2_clahe_lab := fun img => Return img;
  DeepFace_analyze := fun detector _ =>
    match detector with
    | DefaultBackend => Raise (ForeignError "no model")
    | OpenCV => Return [list_to_map r]
    end
|}.

(** * The scores as binary64 floats

    [Float64] holds the same program once more with every score, weight and
    confidence a binary64 float and every arithmetic operation and comparison
    the IEEE one, as Python performs them: [*], [/], [+], [<] and [>] on
    floats.  It is what the statements about which label wins a comparison
    are made of.  Raw scores are taken as Python floats.  [sum] starts from
    the integer 0, which is exact as a float; on the one or two values the
    analyzer collects, left-to-right addition is what [sum] returns. *)

Module Float64.

Abbreviation scores := (gmap string float).

Record EmotionAnalyzer : Type := {
  emotions : list string;
  previous_emotions : list string;
  smooth_window : nat;
  emotion_weights : gmap string float
}.

(** [EmotionAnalyzer.__init__] *)
Definition init : EmotionAnalyzer := {|
  emotions := ["angry"; "disgust"; "fear"; "happy"; "sad"; "surprise"; "neutral"];
  previous_emotions := [];
  smooth_window := 2;
  emotion_weights :=
    <["sad" := 1.2%float]> (<["disgust" := 1.2%float]> (<["angry" := 1.1%float]>
    (<["fear" := 1.1%float]> (<["happy" := 0.9%float]> (<["neutral" := 0.8%float]>
    (<["surprise" := 1.0%float]> ∅))))))
|}.

Record externals : Type := {
  cv2_resize : ndarray -> nat * nat -> outcome ndarray;
  cv2_clahe_lab : ndarray -> outcome ndarray;
  DeepFace_analyze : backend -> ndarray -> outcome (list scores)
}.

Record world : Type := {
  self : EmotionAnalyzer;
  trace : list event
}.

Definition M (A : Type) : Type := world -> outcome A * world.

Definition ret {A} (a : A) : M A := fun w => (Return a, w).

Definition bind {A B} (m : M A) (k : A -> M B) : M B :=
  fun w =>
    match m w with
    | (Return a, w') => k a w'
    | (Raise e, w') => (Raise e, w')
    end.

Definition try_except {A} (m : M A) (h : exn -> M A) : M A :=
  fun w =>
    match m w with
    | (Return a, w') => (Return a, w')
    | (Raise e, w') => h e w'
    end.

Definition lift {A} (o : outcome A) : M A := fun w => (o, w).

Definition emit (ev : event) : M unit :=
  fun w => (Return tt, {| self := self w; trace := trace w ++ [ev] |}).

Definition get_self : M EmotionAnalyzer := fun w => (Return (self w), w).

Definition with_previous_emotions (obj : EmotionAnalyzer) (l : list string)
  : EmotionAnalyzer :=
  {| emotions := emotions obj;
     previous_emotions := l;
     smooth_window := smooth_window obj;
     emotion_weights := emotion_weights obj |}.

Definition set_previous_emotions (l : list string) : M unit :=
  fun w =>
    (Return tt, {| self := with_previous_emotions (self w) l; trace := trace w |}).

Declare Scope float_py_scope.
Notation "x <- m ;; k" := (bind m (fun x => k))
  (at level 100, m at next level, right associativity) : float_py_scope.
Notation "m ;;; k" := (bind m (fun _ => k))
  (at level 100, right associativity) : float_py_scope.
Local Open Scope float_py_scope.

(** [key=lambda x: x[1]] on float values: [lt a b] is [b[1] > a[1]]. *)
Definition by_value (a b : string * float) : bool := PrimFloat.ltb (snd a) (snd b).

(** [sum(values)] *)
Definition py_sum (values : list float) : float :=
  fold_left PrimFloat.add values 0%float.

(** [len(values)] as the divisor of a float. *)
Definition py_float (n : nat) : float :=
  PrimFloat.of_uint63 (Uint63.of_Z (Z.of_nat n)).

Definition call_resize (env : externals) (img : ndarray) (dsize : nat * nat) : M ndarray :=
  emit (CallResize img dsize);;;
  lift (cv2_resize env img dsize).

Definition call_analyze (env : externals) (detector : backend) (img : ndarray)
  : M (list scores) :=
  emit (CallAnalyze detector img);;;
  lift (DeepFace_analyze env detector img).

Definition enhance_contrast (env : externals) (img : ndarray) : outcome ndarray :=
  if decide (length (shape img) = 3%nat) then cv2_clahe_lab env img
  else Return img.

(** Lines 58-61. *)
Definition ensure_min_size (env : externals) (face_img : ndarray) : M ndarray :=
  h <- lift (shape_at face_img 0);;
  small <- (if (h <? min_size)%nat then ret true
            else w <- lift (shape_at face_img 1);; ret (w <? min_size)%nat);;
  if small : bool then call_resize env face_img (min_size, min_size)
  else ret face_img.

(** Lines 68-78 and 80-91. *)
Definition attempt (env : externals) (detector : backend) (label : string)
    (face_img : ndarray) (results : list scores) : M (list scores) :=
  try_except
    (result <- call_analyze env detector face_img;;
     first <- lift (index0 result);;
     ret (results ++ [first]))
    (fun e => emit (LogWarning (label +:+ " attempt failed: " +:+ str e));;;
              ret results).

(** Lines 58-64. *)
Definition preprocess (env : externals) (face_img : ndarray) : M ndarray :=
  face_img <- ensure_min_size env face_img;;
  lift (enhance_contrast env face_img).

(** Lines 58-91. *)
Definition classify (env : externals) (face_img : ndarray) : M (list scores) :=
  face_img <- preprocess env face_img;;
  results <- attempt env DefaultBackend "First" face_img [];;
  attempt env OpenCV "Second" face_img results.

(** Lines 99-100: [sum(values) / len(values)]. *)
Definition mean_score (results : list scores) (emotion : string) : float :=
  let values := map (fun r : scores => default 0%float (r !! emotion)) results in
  PrimFloat.div (py_sum values) (py_float (length values)).

(** Line 100. *)
Definition average_step (results : list scores) (avg_emotions : list (string * float))
    (emotion : string) : list (string * float) :=
  dict_set avg_emotions emotion (mean_score results emotion).

(** Lines 97-100. *)
Definition average_scores (emotions : list string) (results : list scores)
  : list (string * float) :=
  fold_left (average_step results) emotions [].

(** Lines 103-106: [conf * self.emotion_weights.get(emo, 1.0)]. *)
Definition weigh (weights : gmap string float) (avg_emotions : list (string * float))
  : list (string * float) :=
  map (fun item : string * float =>
         (fst item, PrimFloat.mul (snd item) (default 1.0%float (weights !! fst item))))
      avg_emotions.

(** Lines 118-124: [avg_emotions[smoothed_emotion] / 100.0]. *)
Definition smooth (history : list string) (dominant_emotion : string * float)
    (avg_emotions : list (string * float)) : outcome (string * float) :=
  match history with
  | _ :: _ =>
      match index0 (most_common1 (Counter history)) with
      | Return top =>
          let smoothed_emotion := fst top in
          match dict_get avg_emotions smoothed_emotion with
          | Return v => Return (smoothed_emotion, PrimFloat.div v 100%float)
          | Raise e => Raise e
          end
      | Raise e => Raise e
      end
  | [] =>
      let smoothed_emotion := fst dominant_emotion in
      match dict_get avg_emotions smoothed_emotion with
      | Return v => Return (smoothed_emotion, PrimFloat.div v 100%float)
      | Raise e => Raise e
      end
  end.

(** Lines 127-135: [smoothed_confidence < 0.6], [next_emotion[1] > 20],
    [next_emotion[1] / 100.0]. *)
Definition subtle_check (avg_emotions : list (string * float)) (smoothed : string * float)
  : outcome (string * float) :=
  if decide (fst smoothed = "neutral") then
    if PrimFloat.ltb (snd smoothed) 0.6%float then
      let other_emotions :=
        filter (fun item : string * float => fst item <> "neutral") avg_emotions in
      match other_emotions with
      | _ :: _ =>
          match py_max by_value other_emotions with
          | Return next_emotion =>
              if PrimFloat.ltb 20%float (snd next_emotion)
              then Return (fst next_emotion, PrimFloat.div (snd next_emotion) 100%float)
              else Return smoothed
          | Raise e => Raise e
          end
      | [] => Return smoothed
      end
    else Return smoothed
  else Return smoothed.

(** Lines 96-135. *)
Definition stabilize (results : list scores) : M (string * float) :=
  obj <- get_self;;
  let avg_emotions := average_scores (emotions obj) results in
  let weighted_emotions := weigh (emotion_weights obj) avg_emotions in
  dominant_emotion <- lift (py_max by_value weighted_emotions);;
  set_previous_emotions
    (push_history (smooth_window obj) (previous_emotions obj) (fst dominant_emotion));;;
  obj <- get_self;;
  smoothed <- lift (smooth (previous_emotions obj) dominant_emotion avg_emotions);;
  lift (subtle_check avg_emotions smoothed).

(** The [try] block, lines 54-135. *)
Definition analyze_body (env : externals) (face_img : option ndarray)
  : M (string * float) :=
  match face_img with
  | None => ret ("neutral", 0.0%float)
  | Some face_img =>
      if decide (size face_img = 0%nat) then ret ("neutral", 0.0%float)
      else
        results <- classify env face_img;;
        match results with
        | [] => ret ("neutral", 0.0%float)
        | _ :: _ => stabilize results
        end
  end.

Definition analyze_emotion (env : externals) (face_img : option ndarray)
  : M (string * float) :=
  try_except (analyze_body env face_img)
    (fun e => emit (LogError ("Error in emotion analysis: " +:+ str e));;;
              ret ("neutral", 0.1%float)).

(** The dominant pick of line 109 for given results. *)
Definition dominant_pick (obj : EmotionAnalyzer) (results : list scores)
  : outcome (string * float) :=
  py_max by_value (weigh (emotion_weights obj) (average_scores (emotions obj) results)).

(** A computation that leaves the analyzer object alone. *)
Definition keeps_self {A} (m : M A) : Prop :=
  forall w, self (snd (m w)) = self w.

(** No value of a score dict is a NaN. *)
Definition no_nan (d : list (string * float)) : Prop :=
  forall item, item ∈ d -> PrimFloat.is_nan (snd item) = false.

(** A number that is not negative: a zero, a positive finite float or
    [+inf]. *)
Definition SFnonneg (f : spec_float) : Prop :=
  match f with
  | S754_nan | S754_infinity true | S754_finite true _ _ => False
  | _ => True
  end.

Definition nonneg (x : float) : Prop := SFnonneg (Prim2SF x).

Definition positive_finite (x : float) : Prop :=
  exists m e, Prim2SF x = S754_finite false m e.

(** Every raw score is a number and [0 <= score] holds, as for the
    percentages the classifier reports. *)
Definition nonneg_scores (results : list scores) : Prop :=
  forall (r : scores) k v,
    r ∈ results -> r !! k = Some v -> PrimFloat.leb 0%float v = true.

(** Every weight is a number with [0 < weight < inf]. *)
Definition positive_weights (weights : gmap string float) : Prop :=
  forall k v,
    weights !! k = Some v ->
    PrimFloat.ltb 0%float v = true /\ PrimFloat.ltb v infinity = true.

(** Sample inputs: OpenCV behaves and both detectors answer one face with the
    given scores. *)
Definition fresh : world := {| self := init; trace := [] |}.

Definition steady (r : list (string * float)) : externals := {|
  cv2_resize := fun img dsize =>
    Return {| shape := [snd dsize; fst dsize; 3%nat]; buffer := buffer img |};
  cv2_clahe_lab := fun img => Return img;
  DeepFace_analyze := fun _ _ => Return [list_to_map r]
|}.

Definition twice (r : list (string * float)) : list scores :=
  [list_to_map r; list_to_map r].

Definition seen : world :=
  {| self := init;
     trace := [CallAnalyze DefaultBackend (grid 100 100);
               CallAnalyze OpenCV (grid 100 100)] |}.

Definition mostly_neutral : list (string * float) :=
  [("neutral", 55%float); ("sad", 25%float); ("happy", 5%float); ("angry", 5%float);
   ("fear", 4%float); ("surprise", 3%float); ("disgust", 3%float)].

Definition sad_happy_tie : list (string * float) :=
  [("sad", 50%float); ("happy", 50%float)].

(** Two scores whose exact products with their weights are equal and whose
    float products are not. *)
Definition disgust_fear : list (string * float) :=
  [("disgust", 11%float); ("fear", 12%float)].

(** Two attempts that differ in the last place of one score. *)
Definition near_twenty_first : list (string * float) :=
  [("neutral", 50%float); ("sad", 20.000000000000004%float)].

Definition near_twenty_second : list (string * float) :=
  [("neutral", 50%float); ("sad", 20%float)].

(** A neutral score whose hundredth rounds to the float 0.6. *)
Definition just_below_sixty : list (string * float) :=
  [("neutral", 59.99999999999999%float); ("sad", 25%float)].

(** OpenCV behaves; each detector answers one face with scores of its own. *)
Definition two_answers (first second : list (string * float)) : externals := {|
  cv2_resize := fun img dsize =>
    Return {| shape := [snd dsize; fst dsize; 3%nat]; buffer := buffer img |};
  cv2_clahe_lab := fun img => Return img;
  DeepFace_analyze := fun detector _ =>
    match detector with
    | DefaultBackend => Return [list_to_map first]
    | OpenCV => Return [list_to_map second]
    end
|}.

End Float64.

(** * Properties *)

(** ** The first maximum *)

Section FirstMax.
Context {A : Type} (lt : A -> A -> bool).
Hypothesis lt_asym : forall a b, lt a b = true -> lt b a = false.
Hypothesis lt_negtrans :
  forall a b c, lt a b = false -> lt b c = false -> lt a c = false.

(** The running maximum splits the scanned items: strictly smaller ones
    before it, none larger after it. *)
Lemma max_from_split (best : A) (l : list A) :
  exists l1 l2,
    best :: l = l1 ++ max_from lt best l :: l2 /\
    (forall x, x ∈ l1 -> lt x (max_from lt best l) = true) /\
    (forall x, x ∈ l2 -> lt (max_from lt best l) x = false).
Proof.
  revert best. induction l as [|x l IH]; intros best; simpl.
  - exists [], []. split; [reflexivity|]. split; intros y Hy; inversion Hy.
  - destruct (lt best x) eqn:Hbx.
    + destruct (IH x) as (l1 & l2 & Heq & Hlt & Hge).
      exists (best :: l1), l2. split; [simpl; now rewrite <- Heq|].
      split; [|exact Hge].
      intros y Hy. apply elem_of_cons in Hy as [->|Hy]; [|now apply Hlt].
      destruct l1 as [|x' l1].
      * simpl in Heq. injection Heq as Hx _. now rewrite <- Hx.
      * simpl in Heq. injection Heq as Hx _. subst x'.
        assert (Hxm : lt x (max_from lt x l) = true) by (apply Hlt; left).
        destruct (lt best (max_from lt x l)) eqn:Hbm; [reflexivity|].
        apply lt_asym in Hxm.
        rewrite (lt_negtrans _ _ _ Hbm Hxm) in Hbx. discriminate.
    + destruct (IH best) as (l1 & l2 & Heq & Hlt & Hge).
      destruct l1 as [|b l1]; simpl in Heq.
      * injection Heq as Hb Hl. exists [], (x :: l2).
        split; [simpl; now rewrite <- Hb, <- Hl|].
        split; [intros y Hy; inversion Hy|].
        intros y Hy. apply elem_of_cons in Hy as [->|Hy]; [|now apply Hge].
        now rewrite <- Hb.
      * injection Heq as Hb Hl. subst b. exists (best :: x :: l1), l2.
        split; [simpl; now rewrite <- Hl|]. split; [|exact Hge].
        intros y Hy. apply elem_of_cons in Hy as [->|Hy]; [apply Hlt; left|].
        apply elem_of_cons in Hy as [->|Hy]; [|apply Hlt; now right].
        assert (Hbm : lt best (max_from lt best l) = true) by (apply Hlt; left).
        destruct (lt x (max_from lt best l)) eqn:Hxm; [reflexivity|].
        rewrite (lt_negtrans _ _ _ Hbx Hxm) in Hbm. discriminate.
Qed.

Lemma py_max_split (l : list A) (m : A) :
  py_max lt l = Return m ->
  exists l1 l2,
    l = l1 ++ m :: l2 /\
    (forall x, x ∈ l1 -> lt x m = true) /\
    (forall x, x ∈ l2 -> lt m x = false).
Proof.
  destruct l as [|x l]; simpl; [discriminate|].
  intros [= <-]. apply max_from_split.
Qed.
End FirstMax.

Lemma py_max_elem {A} (lt : A -> A -> bool) (l : list A) (m : A) :
  py_max lt l = Return m -> m ∈ l.
Proof.
  destruct l as [|x l]; simpl; [discriminate|]. intros [= <-].
  revert x. induction l as [|y l IH]; intros x; simpl; [left|].
  destruct (lt x y).
  - right. apply IH.
  - specialize (IH x). apply elem_of_cons in IH as [->|IH]; [left|right; now right].
Qed.

Lemma py_max_nonempty {A} (lt : A -> A -> bool) (l : list A) :
  l <> [] -> exists m, py_max lt l = Return m.
Proof. destruct l; [congruence|]. intros _. simpl. eauto. Qed.

Lemma Qltb_lt (a b : Q) : Qltb a b = true <-> (a < b)%Q.
Proof.
  unfold Qltb. rewrite Qlt_alt. destruct (a ?= b)%Q; split; congruence.
Qed.

Lemma Qltb_ge (a b : Q) : Qltb a b = false <-> (b <= a)%Q.
Proof.
  rewrite <- not_true_iff_false, Qltb_lt. split.
  - apply Qnot_lt_le.
  - apply Qle_not_lt.
Qed.

Lemma by_value_asym a b : by_value a b = true -> by_value b a = false.
Proof.
  unfold by_value. rewrite Qltb_lt, Qltb_ge. apply Qlt_le_weak.
Qed.

Lemma by_value_negtrans a b c :
  by_value a b = false -> by_value b c = false -> by_value a c = false.
Proof.
  unfold by_value. rewrite !Qltb_ge. intros H1 H2. now apply Qle_trans with (snd b).
Qed.

Lemma by_count_asym a b : by_count a b = true -> by_count b a = false.
Proof.
  unfold by_count. rewrite Nat.ltb_lt, Nat.ltb_ge. lia.
Qed.

Lemma by_count_negtrans a b c :
  by_count a b = false -> by_count b c = false -> by_count a c = false.
Proof.
  unfold by_count. rewrite !Nat.ltb_ge. lia.
Qed.

(** ** Insertion-ordered dicts *)

Section Dict.
Context {V : Type}.
Implicit Types (d : list (string * V)) (k : string) (v : V).

Lemma dict_set_elem d k v k' v' :
  (k', v') ∈ dict_set d k v -> (k' = k /\ v' = v) \/ (k', v') ∈ d.
Proof.
  induction d as [|[k0 v0] d IH]; simpl.
  - intros H. apply list_elem_of_singleton in H. injection H as -> ->. now left.
  - destruct (decide (k0 = k)) as [->|Hne]; intros H;
      apply elem_of_cons in H as [H|H].
    + injection H as -> ->. now left.
    + right. now right.
    + right. rewrite H. left.
    + destruct (IH H) as [?|?]; [now left|right; now right].
Qed.

Lemma dict_set_new d k v : (k, v) ∈ dict_set d k v.
Proof.
  induction d as [|[k0 v0] d IH]; simpl; [left|].
  destruct (decide (k0 = k)) as [->|Hne]; [left|now right].
Qed.

Lemma dict_set_keys d k v :
  (dict_set d k v).*1 = if decide (k ∈ d.*1) then d.*1 else d.*1 ++ [k].
Proof.
  induction d as [|[k0 v0] d IH]; csimpl.
  - reflexivity.
  - destruct (decide (k0 = k)) as [->|Hne]; csimpl.
    + rewrite decide_True by left. reflexivity.
    + rewrite IH. destruct (decide (k ∈ d.*1)) as [Hin|Hnin].
      * rewrite decide_True by (now right). reflexivity.
      * rewrite decide_False; [reflexivity|].
        intros Hin'. apply elem_of_cons in Hin' as [->|?]; congruence.
Qed.

Lemma dict_set_NoDup d k v : NoDup d.*1 -> NoDup (dict_set d k v).*1.
Proof.
  intros Hd. rewrite dict_set_keys. destruct (decide (k ∈ d.*1)); [exact Hd|].
  apply NoDup_app. split; [exact Hd|]. split; [|apply NoDup_singleton].
  intros x Hx Hk. apply list_elem_of_singleton in Hk. congruence.
Qed.

Lemma dict_get_elem d k v : dict_get d k = Return v -> (k, v) ∈ d.
Proof.
  induction d as [|[k0 v0] d IH]; simpl; [discriminate|].
  destruct (decide (k0 = k)) as [->|Hne].
  - intros [= ->]. left.
  - intros H. right. now apply IH.
Qed.

Lemma dict_get_key d k : k ∈ d.*1 -> exists v, dict_get d k = Return v.
Proof.
  induction d as [|[k0 v0] d IH]; simpl; intros H; [inversion H|].
  destruct (decide (k0 = k)) as [->|Hne]; [eauto|].
  apply elem_of_cons in H as [?|H]; [congruence|]. now apply IH.
Qed.

Lemma dict_get_missing d k e : dict_get d k = Raise e -> k ∉ d.*1.
Proof.
  intros H Hin. destruct (dict_get_key d k Hin) as [v Hv]. congruence.
Qed.

Lemma dict_get_NoDup d k v : NoDup d.*1 -> (k, v) ∈ d -> dict_get d k = Return v.
Proof.
  induction d as [|[k0 v0] d IH]; simpl; intros Hd H; [inversion H|].
  apply NoDup_cons in Hd as [Hk0 Hd].
  destruct (decide (k0 = k)) as [->|Hne].
  - apply elem_of_cons in H as [H|H]; [now injection H as ->|].
    exfalso. apply Hk0. apply list_elem_of_fmap. now exists (k, v).
  - apply elem_of_cons in H as [H|H]; [congruence|]. now apply IH.
Qed.

(** Where an item of the updated dict stands: at the place of an item of
    the old dict with the same key, or at the end as the new key. *)
Lemma dict_set_split d k v d1' e' d2' :
  dict_set d k v = d1' ++ e' :: d2' ->
  (exists d1 e d2, d = d1 ++ e :: d2 /\ d1.*1 = d1'.*1 /\ e.1 = e'.1) \/
  (d1' = d /\ e'.1 = k /\ d2' = []).
Proof.
  revert d1'. induction d as [|[k0 v0] d IH]; intros d1'; simpl.
  - destruct d1' as [|x d1']; simpl.
    + intros [= <- <-]. now right.
    + intros [= _ H]. destruct d1'; discriminate.
  - destruct (decide (k0 = k)) as [->|Hne].
    + destruct d1' as [|x d1']; simpl.
      * intros [= <- <-]. left. now exists [], (k, v0), d.
      * intros [= <- ->]. left. now exists ((k, v0) :: d1'), e', d2'.
    + destruct d1' as [|x d1']; simpl.
      * intros [= <- <-]. left. now exists [], (k0, v0), d.
      * intros [= <- H]. destruct (IH _ H) as [(d1 & e & d2 & -> & Hk & He)|(-> & He & ->)].
        -- left. exists ((k0, v0) :: d1), e, d2. csimpl. now rewrite Hk.
        -- now right.
Qed.
End Dict.

Lemma dict_functional {V} (d : list (string * V)) k v1 v2 :
  NoDup d.*1 -> (k, v1) ∈ d -> (k, v2) ∈ d -> v1 = v2.
Proof.
  intros Hd H1 H2. apply (dict_get_NoDup _ _ _ Hd) in H1, H2. congruence.
Qed.

Lemma elem_keys {V} (d : list (string * V)) k :
  k ∈ d.*1 <-> exists v, (k, v) ∈ d.
Proof.
  rewrite list_elem_of_fmap. split.
  - intros [[k' v] [-> H]]. now exists v.
  - intros [v H]. now exists (k, v).
Qed.

(** ** Averaging *)

Section Averaging.
Variable results : list scores.

Lemma fold_average_elem em acc k v :
  (k, v) ∈ fold_left (average_step results) em acc ->
  (k, v) ∈ acc \/ (k ∈ em /\ v = mean_score results k).
Proof.
  revert acc. induction em as [|e em IH]; intros acc; simpl; [now left|].
  intros H. destruct (IH _ H) as [Hacc|[Hin ->]].
  - apply dict_set_elem in Hacc as [[-> ->]|Hacc]; [right; split; [left|reflexivity]|now left].
  - right. split; [now right|reflexivity].
Qed.

Lemma fold_average_keys em acc k :
  k ∈ (fold_left (average_step results) em acc).*1 <-> k ∈ acc.*1 \/ k ∈ em.
Proof.
  revert acc. induction em as [|e em IH]; intros acc; simpl.
  - split; [now left|]. intros [H|H]; [exact H|inversion H].
  - rewrite IH. unfold average_step. rewrite dict_set_keys.
    destruct (decide (e ∈ acc.*1)) as [He|He].
    + rewrite elem_of_cons. split; [intros [?|?]; auto|].
      intros [?|[->|?]]; auto.
    + rewrite elem_of_app, list_elem_of_singleton, elem_of_cons. tauto.
Qed.

Lemma fold_average_NoDup em acc :
  NoDup acc.*1 -> NoDup (fold_left (average_step results) em acc).*1.
Proof.
  revert acc. induction em as [|e em IH]; intros acc Hacc; simpl; [exact Hacc|].
  apply IH. now apply dict_set_NoDup.
Qed.
End Averaging.

Lemma average_scores_elem em results k v :
  (k, v) ∈ average_scores em results -> k ∈ em /\ v = mean_score results k.
Proof.
  intros H. apply fold_average_elem in H as [H|H]; [inversion H|exact H].
Qed.

Lemma average_scores_keys em results k :
  k ∈ (average_scores em results).*1 <-> k ∈ em.
Proof.
  unfold average_scores. rewrite fold_average_keys. split; [|now right].
  intros [H|H]; [inversion H|exact H].
Qed.

Lemma average_scores_NoDup em results : NoDup (average_scores em results).*1.
Proof. apply fold_average_NoDup. constructor. Qed.

Lemma average_scores_nonempty em results : em <> [] -> average_scores em results <> [].
Proof.
  destruct em as [|e em]; [congruence|]. intros _ Hnil.
  assert (H : e ∈ (average_scores (e :: em) results).*1)
    by (apply average_scores_keys; left).
  rewrite Hnil in H. inversion H.
Qed.

Lemma weigh_keys weights avg : (weigh weights avg).*1 = avg.*1.
Proof.
  unfold weigh. induction avg as [|[k v] avg IH]; csimpl; [reflexivity|].
  now rewrite <- IH.
Qed.

Lemma dominant_pick_label obj results d :
  dominant_pick obj results = Return d -> fst d ∈ emotions obj.
Proof.
  intros H. apply py_max_elem in H.
  apply (average_scores_keys _ results). rewrite <- (weigh_keys (emotion_weights obj)).
  apply list_elem_of_fmap. now exists d.
Qed.

Lemma dominant_pick_defined obj results :
  emotions obj <> [] -> exists d, dominant_pick obj results = Return d.
Proof.
  intros H. apply py_max_nonempty. intros Hnil.
  apply (average_scores_nonempty _ results) in H. apply H.
  apply (f_equal (fmap fst)) in Hnil. rewrite weigh_keys in Hnil.
  destruct (average_scores (emotions obj) results); [reflexivity|discriminate].
Qed.

(** ** Counting the history *)

Lemma Counter_snoc p k : Counter (p ++ [k]) = count_one (Counter p) k.
Proof. unfold Counter. now rewrite fold_left_app. Qed.

Lemma occurrences_snoc p k k' :
  occurrences (p ++ [k]) k' = (occurrences p k' + if decide (k = k') then 1 else 0)%nat.
Proof.
  unfold occurrences. rewrite count_occ_app. simpl.
  destruct (String.eq_dec k k'), (decide (k = k')); congruence.
Qed.

Lemma occurrences_zero p k : k ∉ p -> occurrences p k = 0%nat.
Proof.
  intros H. apply count_occ_not_In. now rewrite <- list_elem_of_In.
Qed.

Lemma Counter_spec h : counter_of h (Counter h).
Proof.
  induction h as [|k p IH] using rev_ind.
  - split; simpl.
    + constructor.
    + intros k n H. inversion H.
    + intros k H. inversion H.
    + intros [|? ?] e c2 H; discriminate.
  - rewrite Counter_snoc. destruct IH as [Hd Hc Hk Ho].
    assert (Hd' : NoDup (count_one (Counter p) k).*1) by now apply dict_set_NoDup.
    assert (Hnew : dict_get_default (Counter p) k 0%nat = occurrences p k).
    { unfold dict_get_default. destruct (dict_get (Counter p) k) eqn:Hg.
      - apply Hc. now apply dict_get_elem.
      - symmetry. apply occurrences_zero. intros Hin.
        apply dict_get_missing in Hg. auto. }
    split.
    + exact Hd'.
    + intros k' n' H. rewrite occurrences_snoc.
      destruct (decide (k = k')) as [<-|Hne].
      * rewrite <- Hnew. apply (dict_functional _ k _ _ Hd' H). apply dict_set_new.
      * apply dict_set_elem in H as [[? _]|H]; [congruence|].
        rewrite (Hc _ _ H). lia.
    + intros k' H. unfold count_one. rewrite dict_set_keys.
      apply elem_of_app in H as [H|H].
      * destruct (decide (k ∈ (Counter p).*1)); [auto|]. apply elem_of_app. auto.
      * apply list_elem_of_singleton in H as ->.
        destruct (decide (k ∈ (Counter p).*1)); [auto|].
        apply elem_of_app. right. left.
    + intros c1' e' c2' H.
      apply dict_set_split in H as [(c1 & e & c2 & Hsplit & Hk1 & He)|(-> & He & _)].
      * destruct (Ho _ _ _ Hsplit) as (p1 & q & -> & Hp1).
        exists p1, (q ++ [k]). rewrite <- He, <- Hk1. split; [|exact Hp1].
        now rewrite <- app_assoc.
      * exists p, []. rewrite He. split; [reflexivity|exact Hk].
Qed.

(** [Counter(h).most_common(1)[0]] for a non-empty history: the label that is
    met first among those with the largest number of occurrences. *)
Lemma most_common_first h :
  h <> [] ->
  exists s p q,
    index0 (most_common1 (Counter h)) = Return (s, occurrences h s) /\
    h = p ++ s :: q /\
    (s ∉ p) /\
    (forall y, y ∈ p -> (occurrences h y < occurrences h s)%nat) /\
    (forall y, y ∈ q -> (occurrences h y <= occurrences h s)%nat).
Proof.
  intros Hne. destruct (Counter_spec h) as [Hd Hc Hk Ho].
  assert (Hc0 : Counter h <> []).
  { destruct h as [|x h]; [congruence|]. intros Hnil.
    assert (H : x ∈ (Counter (x :: h)).*1) by (apply Hk; left).
    rewrite Hnil in H. inversion H. }
  destruct (py_max_nonempty by_count _ Hc0) as [[s n] Hm].
  destruct (py_max_split by_count by_count_asym by_count_negtrans _ _ Hm)
    as (c1 & c2 & Hsplit & Hlt & Hge).
  destruct (Ho _ _ _ Hsplit) as (p & q & Hh & Hp).
  assert (Hn : n = occurrences h s).
  { apply Hc. rewrite Hsplit. apply elem_of_app. right. left. }
  assert (Hs : s ∉ c1.*1).
  { rewrite Hsplit, fmap_app, fmap_cons in Hd. apply NoDup_app in Hd as (_ & Hd & _).
    intros Hin. apply (Hd _ Hin). left. }
  exists s, p, q. unfold most_common1. rewrite Hm. simpl. subst n.
  split; [reflexivity|]. split; [exact Hh|]. split; [intros Hin; auto|].
  assert (Hbefore : forall y, y ∈ c1.*1 -> (occurrences h y < occurrences h s)%nat).
  { intros y Hy. apply elem_keys in Hy as [m Hy].
    specialize (Hlt _ Hy). unfold by_count in Hlt. simpl in Hlt.
    apply Nat.ltb_lt in Hlt. rewrite <- (Hc y m); [exact Hlt|].
    rewrite Hsplit. apply elem_of_app. now left. }
  split; [intros y Hy; auto|].
  intros y Hy.
  assert (Hyh : y ∈ h) by (rewrite Hh; apply elem_of_app; right; now right).
  apply Hk, elem_keys in Hyh as [m Hym]. rewrite <- (Hc y m Hym).
  rewrite Hsplit in Hym. apply elem_of_app in Hym as [Hym|Hym].
  - specialize (Hlt _ Hym). unfold by_count in Hlt. simpl in Hlt.
    apply Nat.ltb_lt in Hlt. lia.
  - apply elem_of_cons in Hym as [Hym|Hym]; [injection Hym as -> ->; lia|].
    specialize (Hge _ Hym). unfold by_count in Hge. simpl in Hge.
    apply Nat.ltb_ge in Hge. exact Hge.
Qed.

(** ** The monad and the foreign calls *)

Lemma keeps_self_ret {A} (a : A) : keeps_self (ret a).
Proof. intros w. reflexivity. Qed.

Lemma keeps_self_lift {A} (o : outcome A) : keeps_self (lift o).
Proof. intros w. reflexivity. Qed.

Lemma keeps_self_emit ev : keeps_self (emit ev).
Proof. intros w. reflexivity. Qed.

Lemma keeps_self_bind {A B} (m : M A) (k : A -> M B) :
  keeps_self m -> (forall a, keeps_self (k a)) -> keeps_self (bind m k).
Proof.
  intros Hm Hk w. unfold bind. specialize (Hm w).
  destruct (m w) as [[a|e] w1]; simpl in *; [|exact Hm].
  now rewrite Hk.
Qed.

Lemma keeps_self_try {A} (m : M A) (h : exn -> M A) :
  keeps_self m -> (forall e, keeps_self (h e)) -> keeps_self (try_except m h).
Proof.
  intros Hm Hh w. unfold try_except. specialize (Hm w).
  destruct (m w) as [[a|e] w1]; simpl in *; [exact Hm|].
  now rewrite Hh.
Qed.

Create HintDb keeps discriminated.
#[local] Hint Resolve keeps_self_ret keeps_self_lift keeps_self_emit : keeps.
#[local] Hint Extern 2 (keeps_self (bind _ _)) =>
  apply keeps_self_bind; [|intro] : keeps.
#[local] Hint Extern 2 (keeps_self (try_except _ _)) =>
  apply keeps_self_try; [|intro] : keeps.
#[local] Hint Extern 3 (keeps_self (if ?b then _ else _)) => destruct b : keeps.

Lemma keeps_self_preprocess env img : keeps_self (preprocess env img).
Proof. unfold preprocess, ensure_min_size, call_resize. auto 10 with keeps. Qed.

Lemma keeps_self_attempt env detector label img results :
  keeps_self (attempt env detector label img results).
Proof. unfold attempt, call_analyze. auto 10 with keeps. Qed.

Lemma keeps_self_classify env img : keeps_self (classify env img).
Proof.
  unfold classify.
  apply keeps_self_bind; [apply keeps_self_preprocess|intro].
  apply keeps_self_bind; [apply keeps_self_attempt|intro].
  apply keeps_self_attempt.
Qed.

(** One attempt never raises: it adds its result, or logs and adds nothing. *)
Lemma attempt_eq env detector label img results w :
  attempt env detector label img results w =
  (Return (results ++ first_face (DeepFace_analyze env detector img)),
   add_events (add_events w [CallAnalyze detector img])
     (attempt_log label (DeepFace_analyze env detector img))).
Proof.
  unfold attempt, try_except, bind, call_analyze, emit, lift, ret, add_events.
  simpl. destruct (DeepFace_analyze env detector img) as [[|r rs]|e]; simpl;
    rewrite ?app_nil_r; reflexivity.
Qed.

Lemma classify_eq env img w :
  classify env img w =
  match preprocess env img w with
  | (Return img', w1) =>
      (Return (first_face (DeepFace_analyze env DefaultBackend img') ++
               first_face (DeepFace_analyze env OpenCV img')),
       add_events w1
         (CallAnalyze DefaultBackend img' ::
          attempt_log "First" (DeepFace_analyze env DefaultBackend img') ++
          CallAnalyze OpenCV img' ::
          attempt_log "Second" (DeepFace_analyze env OpenCV img')))
  | (Raise e, w1) => (Raise e, w1)
  end.
Proof.
  unfold classify, bind. destruct (preprocess env img w) as [[img'|e] w1]; [|reflexivity].
  rewrite attempt_eq. simpl. rewrite attempt_eq. unfold add_events. simpl.
  f_equal. f_equal. rewrite <- !app_assoc. reflexivity.
Qed.

Lemma first_face_elem o r :
  r ∈ first_face o -> exists rs, o = Return rs /\ r ∈ rs.
Proof.
  destruct o as [[|r0 rs]|e]; simpl; intros H; try (now inversion H).
  apply list_elem_of_singleton in H as ->. exists (r0 :: rs). split; [reflexivity|left].
Qed.

(** Every collected result is an answer of the classifier. *)
Lemma classify_results env img w results w1 r :
  classify env img w = (Return results, w1) -> r ∈ results ->
  exists detector img' rs, DeepFace_analyze env detector img' = Return rs /\ r ∈ rs.
Proof.
  rewrite classify_eq. destruct (preprocess env img w) as [[img'|e] w0]; [|discriminate].
  intros [= <- _] Hr. apply elem_of_app in Hr as [Hr|Hr];
    apply first_face_elem in Hr as (rs & Hrs & Hr); eauto.
Qed.

(** ** The pipeline *)

Lemma stabilize_eq results w :
  stabilize results w =
  match dominant_pick (self w) results with
  | Raise e => (Raise e, w)
  | Return d =>
      let avg := average_scores (emotions (self w)) results in
      let hist :=
        push_history (smooth_window (self w)) (previous_emotions (self w)) (fst d) in
      let w' := {| self := with_previous_emotions (self w) hist; trace := trace w |} in
      match smooth hist d avg with
      | Raise e => (Raise e, w')
      | Return s => (subtle_check avg s, w')
      end
  end.
Proof.
  unfold stabilize, dominant_pick, bind, get_self, lift, set_previous_emotions.
  simpl. destruct (py_max by_value _) as [d|e]; [|reflexivity]. simpl.
  destruct (smooth _ d _); reflexivity.
Qed.

Lemma analyze_body_reaches env img w results w1 :
  size img <> 0%nat ->
  classify env img w = (Return results, w1) ->
  results <> [] ->
  analyze_body env (Some img) w = stabilize results w1.
Proof.
  intros Hsize Hc Hne. unfold analyze_body, bind.
  destruct (decide (size img = 0%nat)); [contradiction|].
  rewrite Hc. destruct results; [contradiction|reflexivity].
Qed.

(** The handler turns every exception of the body into a result. *)
Lemma analyze_emotion_eq env face_img w :
  analyze_emotion env face_img w =
  match analyze_body env face_img w with
  | (Return r, w') => (Return r, w')
  | (Raise e, w') =>
      (Return ("neutral", 1 # 10),
       add_events w' [LogError ("Error in emotion analysis: " +:+ str e)])
  end.
Proof.
  unfold analyze_emotion, try_except.
  destruct (analyze_body env face_img w) as [[r|e] w']; reflexivity.
Qed.

Lemma analyze_emotion_self env face_img w :
  self (snd (analyze_emotion env face_img w)) =
  self (snd (analyze_body env face_img w)).
Proof.
  rewrite analyze_emotion_eq.
  destruct (analyze_body env face_img w) as [[r|e] w']; reflexivity.
Qed.

(** What a call does to the analyzer object. *)
Lemma analyze_body_self env face_img w :
  self (snd (analyze_body env face_img w)) =
  match frame_candidate (env, face_img) w with
  | Some label =>
      with_previous_emotions (self w)
        (push_history (smooth_window (self w)) (previous_emotions (self w)) label)
  | None => self w
  end.
Proof.
  unfold frame_candidate, analyze_body. simpl.
  destruct face_img as [img|]; [|reflexivity].
  destruct (decide (size img = 0%nat)); [reflexivity|].
  unfold bind. pose proof (keeps_self_classify env img w) as Hself.
  destruct (classify env img w) as [[[|r results]|e] w1]; simpl in Hself;
    try (simpl; exact Hself).
  rewrite stabilize_eq.
  destruct (dominant_pick (self w1) (r :: results)) as [d|e]; [|exact Hself].
  cbv zeta. rewrite <- Hself.
  destruct (smooth _ d _); reflexivity.
Qed.

Lemma push_history_length window history label :
  (length history <= window)%nat ->
  (length (push_history window history label) <= window)%nat.
Proof.
  unfold push_history. intros H.
  destruct (window <? length (history ++ [label]))%nat eqn:Hlt.
  - rewrite length_drop, length_app. simpl. lia.
  - apply Nat.ltb_ge in Hlt. exact Hlt.
Qed.

Lemma push_history_elem window history label x :
  x ∈ push_history window history label -> x ∈ history \/ x = label.
Proof.
  unfold push_history. intros H.
  assert (H' : x ∈ history ++ [label]).
  { destruct (window <? length (history ++ [label]))%nat; [|exact H].
    now apply (subseteq_drop 1). }
  apply elem_of_app in H' as [?|H']; [now left|right].
  now apply list_elem_of_singleton in H'.
Qed.

Lemma push_history_nonempty window history label :
  (0 < window)%nat -> push_history window history label <> [].
Proof.
  unfold push_history. intros Hw.
  destruct (window <? length (history ++ [label]))%nat eqn:Hlt.
  - apply Nat.ltb_lt in Hlt. intros Hnil.
    apply (f_equal length) in Hnil. rewrite length_drop in Hnil. simpl in Hnil. lia.
  - destruct history; discriminate.
Qed.

(** ** Bounds on the averaged scores *)

Lemma fold_Qplus_bounds (values : list Q) (a : Q) :
  (forall v, v ∈ values -> 0 <= v /\ v <= 100)%Q ->
  (a <= fold_left Qplus values a /\
   fold_left Qplus values a <= a + 100 * inject_Z (Z.of_nat (length values)))%Q.
Proof.
  revert a. induction values as [|v values IH]; intros a Hv; simpl length.
  - simpl. split; [apply Qle_refl|]. rewrite Qmult_0_r, Qplus_0_r. apply Qle_refl.
  - assert (Hv0 : (0 <= v /\ v <= 100)%Q) by (apply Hv; left).
    assert (Hrest : (forall x, x ∈ values -> 0 <= x /\ x <= 100)%Q)
      by (intros x Hx; apply Hv; now right).
    destruct (IH (a + v)%Q Hrest) as [Hlo Hhi]. simpl fold_left.
    rewrite Nat2Z.inj_succ, <- Z.add_1_r, inject_Z_plus.
    change (inject_Z 1) with 1%Q.
    destruct Hv0 as [Hv0 Hv1]. split.
    + apply Qle_trans with (a + v)%Q; [|exact Hlo].
      rewrite <- (Qplus_0_r a) at 1. apply Qplus_le_compat; [apply Qle_refl|exact Hv0].
    + apply Qle_trans with (a + v + 100 * inject_Z (Z.of_nat (length values)))%Q;
        [exact Hhi|].
      setoid_replace (a + 100 * (inject_Z (Z.of_nat (length values)) + 1))%Q
        with (a + 100 + 100 * inject_Z (Z.of_nat (length values)))%Q
        using relation Qeq by ring.
      apply Qplus_le_compat; [|apply Qle_refl].
      apply Qplus_le_compat; [apply Qle_refl|exact Hv1].
Qed.

Lemma mean_score_bounds (results : list scores) (k : string) :
  results <> [] ->
  (forall (r : scores) v, r ∈ results -> r !! k = Some v -> 0 <= v /\ v <= 100)%Q ->
  (0 <= mean_score results k /\ mean_score results k <= 100)%Q.
Proof.
  intros Hne Hb. unfold mean_score. cbv zeta.
  set (values := map (fun r : scores => default 0%Q (r !! k)) results).
  assert (Hvals : (forall v, v ∈ values -> 0 <= v /\ v <= 100)%Q).
  { intros v Hv. apply list_elem_of_In, in_map_iff in Hv as (r & <- & Hr).
    apply list_elem_of_In in Hr. destruct (r !! k) as [x|] eqn:Hx; simpl.
    - now apply (Hb r).
    - split; discriminate. }
  assert (Hlen : (0 < inject_Z (Z.of_nat (length values)))%Q).
  { unfold values. rewrite length_map. destruct results; [congruence|].
    simpl length. rewrite <- (Zlt_Qlt 0). lia. }
  destruct (fold_Qplus_bounds values 0%Q Hvals) as [Hlo Hhi].
  rewrite Qplus_0_l in Hhi. unfold py_sum. split.
  - apply Qle_shift_div_l; [exact Hlen|]. now rewrite Qmult_0_l.
  - apply Qle_shift_div_r; [exact Hlen|exact Hhi].
Qed.

Lemma percent_bounds (v : Q) : (0 <= v /\ v <= 100 -> 0 <= v / 100 /\ v / 100 <= 1)%Q.
Proof.
  intros [Hlo Hhi]. split.
  - apply Qle_shift_div_l; [reflexivity|]. now rewrite Qmult_0_l.
  - apply Qle_shift_div_r; [reflexivity|]. now rewrite Qmult_1_l.
Qed.

(** ** Smoothing and the check for subtle emotions *)

Lemma smooth_elem hist d avg s :
  smooth hist d avg = Return s ->
  exists v, (fst s, v) ∈ avg /\ snd s = (v / 100)%Q.
Proof.
  unfold smooth. destruct hist as [|x hist].
  - destruct (dict_get avg (fst d)) as [v|e] eqn:Hg; [|discriminate].
    intros [= <-]. exists v. split; [now apply dict_get_elem|reflexivity].
  - destruct (index0 _) as [top|e]; [|discriminate].
    destruct (dict_get avg (fst top)) as [v|e] eqn:Hg; [|discriminate].
    intros [= <-]. exists v. split; [now apply dict_get_elem|reflexivity].
Qed.

Lemma smooth_label hist d avg s :
  hist <> [] -> smooth hist d avg = Return s ->
  exists n, index0 (most_common1 (Counter hist)) = Return (fst s, n).
Proof.
  unfold smooth. destruct hist as [|x hist]; [congruence|]. intros _.
  destruct (index0 _) as [[t n]|e]; [|discriminate].
  destruct (dict_get avg _) as [v|e]; [|discriminate].
  intros [= <-]. now exists n.
Qed.

Lemma subtle_check_cases avg s :
  (subtle_check avg s = Return s /\
   (fst s = "neutral" -> (snd s < 6 # 10)%Q ->
    forall x, x ∈ avg -> fst x <> "neutral" -> (snd x <= 20)%Q)) \/
  (exists next,
     subtle_check avg s = Return (fst next, (snd next / 100)%Q) /\
     fst s = "neutral" /\ (snd s < 6 # 10)%Q /\
     next ∈ avg /\ fst next <> "neutral" /\ (20 < snd next)%Q /\
     py_max by_value (filter (fun item : string * Q => fst item <> "neutral") avg)
       = Return next /\
     forall x, x ∈ avg -> fst x <> "neutral" -> (snd x <= snd next)%Q).
Proof.
  unfold subtle_check.
  destruct (decide (fst s = "neutral")) as [Hs|Hs]; [|left; split; [reflexivity|congruence]].
  destruct (Qltb (snd s) (6 # 10)) eqn:Hc.
  2:{ left. split; [reflexivity|]. intros _ Hlt. apply Qltb_ge in Hc.
      exfalso. now apply (Qlt_not_le _ _ Hlt). }
  remember (filter (fun item : string * Q => fst item <> "neutral") avg) as others
    eqn:Ho.
  assert (Hother : forall x, x ∈ others <-> x ∈ avg /\ fst x <> "neutral").
  { intros x. rewrite Ho, list_elem_of_filter. tauto. }
  clear Ho. destruct others as [|o others'].
  { left. split; [reflexivity|]. intros _ _ x Hx Hn.
    assert (H : x ∈ @nil (string * Q)) by (apply Hother; auto). inversion H. }
  remember (o :: others') as other eqn:Ho.
  destruct (py_max by_value other) as [next|e] eqn:Hm;
    [|rewrite Ho in Hm; discriminate Hm].
  assert (Hmax : forall x, x ∈ other -> (snd x <= snd next)%Q).
  { destruct (py_max_split by_value by_value_asym by_value_negtrans _ _ Hm)
      as (l1 & l2 & Hsplit & Hlt & Hge).
    intros x Hx. rewrite Hsplit in Hx. apply elem_of_app in Hx as [Hx|Hx].
    - apply Qlt_le_weak. apply Qltb_lt. now apply Hlt.
    - apply elem_of_cons in Hx as [->|Hx]; [apply Qle_refl|].
      apply Qltb_ge. now apply Hge. }
  pose proof (py_max_elem _ _ _ Hm) as Hin. apply Hother in Hin as [Hin Hnn].
  destruct (Qltb 20 (snd next)) eqn:H20.
  - right. exists next. apply Qltb_lt in Hc, H20.
    repeat split; try assumption. intros x Hx Hn. apply Hmax, Hother. auto.
  - left. split; [reflexivity|]. intros _ _ x Hx Hn. apply Qltb_ge in H20.
    apply Qle_trans with (snd next); [|exact H20]. apply Hmax, Hother. auto.
Qed.

Lemma subtle_check_elem avg s r :
  (exists v, (fst s, v) ∈ avg /\ snd s = (v / 100)%Q) ->
  subtle_check avg s = Return r ->
  exists v, (fst r, v) ∈ avg /\ snd r = (v / 100)%Q.
Proof.
  intros Hs. destruct (subtle_check_cases avg s) as [[-> _]|(next & -> & _ & _ & Hin & _)].
  - now intros [= <-].
  - intros [= <-]. exists (snd next). simpl. split; [|reflexivity].
    now destruct next.
Qed.

Lemma subtle_check_total avg s : exists r, subtle_check avg s = Return r.
Proof.
  destruct (subtle_check_cases avg s) as [[-> _]|(next & -> & _)]; eauto.
Qed.

Lemma neutral_known : "neutral" ∈ emotions init.
Proof. simpl. repeat constructor. Qed.

Lemma stabilize_trace results w : trace (snd (stabilize results w)) = trace w.
Proof.
  rewrite stabilize_eq. destruct (dominant_pick _ _); [|reflexivity].
  cbv zeta. destruct (smooth _ _ _); reflexivity.
Qed.

(** What a successful run of the stabilizing part returns: a key of the
    averaged scores together with its averaged score over 100. *)
Lemma stabilize_returns results w r w' :
  stabilize results w = (Return r, w') ->
  fst r ∈ emotions (self w) /\ snd r = (mean_score results (fst r) / 100)%Q.
Proof.
  rewrite stabilize_eq. destruct (dominant_pick _ _) as [d|e]; [|discriminate].
  cbv zeta. destruct (smooth _ d _) as [s|e] eqn:Hs; [|discriminate].
  intros [= Hr _]. apply smooth_elem in Hs.
  destruct (subtle_check_elem _ _ _ Hs Hr) as (v & Hin & ->).
  apply average_scores_elem in Hin as [Hk ->]. now split.
Qed.

(** * The claims *)

(** C1.  Whatever the image, and whatever the classifier answers as long as
    its raw scores lie in [0,100], a call on an analyzer whose label list is
    the one set by the constructor returns normally, with one of the seven
    labels and a confidence in [0,1]. *)
Theorem analyze_emotion_range env face_img w :
  emotions (self w) = emotions init ->
  bounded_scores env ->
  exists label conf w',
    analyze_emotion env face_img w = (Return (label, conf), w') /\
    label ∈ emotions init /\ (0 <= conf /\ conf <= 1)%Q.
Proof.
  intros Hem Hb. rewrite analyze_emotion_eq.
  assert (Hzero : (0 <= 0 /\ 0 <= 1)%Q) by (split; discriminate).
  assert (Htenth : (0 <= 1 # 10 /\ 1 # 10 <= 1)%Q) by (split; discriminate).
  destruct face_img as [img|]; simpl;
    [|exists "neutral", 0%Q, w; auto using neutral_known].
  destruct (decide (size img = 0%nat));
    [exists "neutral", 0%Q, w; auto using neutral_known|].
  unfold bind. destruct (classify env img w) as [[results|e] w1] eqn:Hc;
    [|eexists "neutral", (1 # 10), _; auto using neutral_known].
  destruct results as [|r0 results];
    [exists "neutral", 0%Q, w1; auto using neutral_known|].
  destruct (stabilize (r0 :: results) w1) as [[[label conf]|e] w2] eqn:Hst;
    [|eexists "neutral", (1 # 10), _; auto using neutral_known].
  exists label, conf, w2. split; [reflexivity|].
  apply stabilize_returns in Hst as [Hlabel Hconf]. simpl in Hlabel, Hconf.
  pose proof (keeps_self_classify env img w) as Hself. rewrite Hc in Hself.
  simpl in Hself. rewrite Hself in Hlabel.
  rewrite Hem in Hlabel. split; [exact Hlabel|].
  rewrite Hconf. apply percent_bounds, mean_score_bounds; [discriminate|].
  intros r v Hr Hv.
  destruct (classify_results _ _ _ _ _ _ Hc Hr) as (detector & img' & rs & Hrs & Hin).
  exact (Hb _ _ _ _ _ _ Hrs Hin Hv).
Qed.

Lemma grid_not_empty h w : (0 < h)%nat -> (0 < w)%nat -> size (grid h w) <> 0%nat.
Proof. unfold size. simpl. nia. Qed.

Lemma mostly_neutral_bounded : bounded_scores (steady mostly_neutral).
Proof.
  intros detector img rs r k v [= <-] Hr Hv.
  apply list_elem_of_singleton in Hr as ->.
  repeat (apply lookup_insert_Some in Hv as [[_ <-]|[_ Hv]]; [split; discriminate|]).
  rewrite lookup_empty in Hv. discriminate.
Qed.

Lemma analyze_emotion_range_witness :
  emotions (self fresh) = emotions init /\
  bounded_scores (steady mostly_neutral) /\
  exists label conf w',
    analyze_emotion (steady mostly_neutral) (Some (grid 100 100)) fresh
      = (Return (label, conf), w') /\
    label ∈ emotions init /\ (0 <= conf /\ conf <= 1)%Q.
Proof.
  split; [reflexivity|]. split; [exact mostly_neutral_bounded|].
  apply (analyze_emotion_range (steady mostly_neutral) (Some (grid 100 100)) fresh).
  - reflexivity.
  - exact mostly_neutral_bounded.
Defined.

(** C7.  An absent image and an empty image give ('neutral', 0.0) at once:
    the world is untouched, so neither OpenCV nor the classifier was called.
    When the image passes the preprocessing and both attempts fail, the call
    gives ('neutral', 0.0) as well and the analyzer object is unchanged. *)
Theorem absent_or_failed_is_neutral_zero :
  (forall env w, analyze_emotion env None w = (Return ("neutral", 0%Q), w)) /\
  (forall env img w,
     size img = 0%nat ->
     analyze_emotion env (Some img) w = (Return ("neutral", 0%Q), w)) /\
  (forall env img w img' w1,
     size img <> 0%nat ->
     preprocess env img w = (Return img', w1) ->
     attempt_fails env DefaultBackend img' ->
     attempt_fails env OpenCV img' ->
     exists w',
       analyze_emotion env (Some img) w = (Return ("neutral", 0%Q), w') /\
       self w' = self w).
Proof.
  split; [reflexivity|]. split.
  - intros env img w Hsize. rewrite analyze_emotion_eq. simpl.
    destruct (decide (size img = 0%nat)); [reflexivity|contradiction].
  - intros env img w img' w1 Hsize Hpre Hf1 Hf2.
    rewrite analyze_emotion_eq. simpl.
    destruct (decide (size img = 0%nat)); [contradiction|].
    unfold bind. rewrite classify_eq, Hpre.
    pose proof (keeps_self_preprocess env img w) as Hself.
    rewrite Hpre in Hself. simpl in Hself.
    unfold attempt_fails in Hf1, Hf2.
    destruct (DeepFace_analyze env DefaultBackend img') as [[|? ?]|?]; try contradiction;
      destruct (DeepFace_analyze env OpenCV img') as [[|? ?]|?]; try contradiction;
      simpl; eexists; (split; [reflexivity|exact Hself]).
Qed.

Lemma absent_or_failed_witness :
  size (grid 100 100) <> 0%nat /\
  preprocess blind (grid 100 100) fresh = (Return (grid 100 100), fresh) /\
  attempt_fails blind DefaultBackend (grid 100 100) /\
  attempt_fails blind OpenCV (grid 100 100) /\
  exists w',
    analyze_emotion blind (Some (grid 100 100)) fresh = (Return ("neutral", 0%Q), w') /\
    self w' = self fresh.
Proof.
  assert (Hsize : size (grid 100 100) <> 0%nat) by (apply grid_not_empty; lia).
  assert (Hpre : preprocess blind (grid 100 100) fresh = (Return (grid 100 100), fresh))
    by reflexivity.
  split; [exact Hsize|]. split; [exact Hpre|]. split; [exact I|]. split; [exact I|].
  exact (proj2 (proj2 absent_or_failed_is_neutral_zero)
           blind (grid 100 100) fresh (grid 100 100) fresh Hsize Hpre I I).
Defined.

(** C8.  Whenever the body of the [try] block raises, whatever the exception,
    the call logs an error and returns ('neutral', 0.1); a call never ends in
    an exception; the failures of single attempts are absorbed before; and
    0.1 differs from the 0.0 of the case where the classifier found nothing. *)
Theorem unexpected_failure_is_neutral_tenth :
  (forall env face_img w e w1,
     analyze_body env face_img w = (Raise e, w1) ->
     analyze_emotion env face_img w =
       (Return ("neutral", 1 # 10),
        add_events w1 [LogError ("Error in emotion analysis: " +:+ str e)])) /\
  (forall env face_img w, exists r w', analyze_emotion env face_img w = (Return r, w')) /\
  (forall env detector label img results w,
     exists results' w', attempt env detector label img results w = (Return results', w')) /\
  ~ (1 # 10 == 0)%Q.
Proof.
  split; [|split; [|split]].
  - intros env face_img w e w1 H. now rewrite analyze_emotion_eq, H.
  - intros env face_img w. rewrite analyze_emotion_eq.
    destruct (analyze_body env face_img w) as [[r|e] w']; eauto.
  - intros. rewrite attempt_eq. eauto.
  - discriminate.
Qed.

Lemma unexpected_failure_witness :
  analyze_body (steady mostly_neutral) (Some flat) fresh
    = (Raise IndexError, fresh) /\
  analyze_emotion (steady mostly_neutral) (Some flat) fresh
    = (Return ("neutral", 1 # 10),
       add_events fresh [LogError ("Error in emotion analysis: " +:+ str IndexError)]).
Proof.
  assert (H : analyze_body (steady mostly_neutral)
                (Some flat) fresh
              = (Raise IndexError, fresh)) by (vm_compute; reflexivity).
  split; [exact H|].
  exact (proj1 unexpected_failure_is_neutral_tenth _ _ _ _ _ H).
Defined.

(** C9.  For an image with a height and a width: if either is below 96 the
    call hands it to [cv2.resize] with target size (96, 96) and goes on with
    what comes back, so that, OpenCV permitting, both classifier attempts run
    on the enhanced resized image and the call ends as for any other image;
    if both are at least 96, [cv2.resize] is not called and the image goes to
    the contrast enhancement as it is. *)
Theorem small_images_are_resized env h wd rest buf w :
  let img := {| shape := h :: wd :: rest; buffer := buf |} in
  ((h < 96 \/ wd < 96)%nat ->
   ensure_min_size env img w =
     (cv2_resize env img (96, 96)%nat, add_events w [CallResize img (96, 96)%nat]) /\
   forall img1 img2,
     size img <> 0%nat ->
     cv2_resize env img (96, 96)%nat = Return img1 ->
     enhance_contrast env img1 = Return img2 ->
     exists results w1,
       classify env img w = (Return results, w1) /\
       trace w1 =
         trace w ++
         CallResize img (96, 96)%nat ::
         CallAnalyze DefaultBackend img2 ::
         attempt_log "First" (DeepFace_analyze env DefaultBackend img2) ++
         CallAnalyze OpenCV img2 ::
         attempt_log "Second" (DeepFace_analyze env OpenCV img2) /\
       analyze_body env (Some img) w =
         match results with
         | [] => (Return ("neutral", 0%Q), w1)
         | _ :: _ => stabilize results w1
         end) /\
  ((96 <= h)%nat -> (96 <= wd)%nat ->
   ensure_min_size env img w = (Return img, w) /\
   preprocess env img w = (enhance_contrast env img, w)).
Proof.
  intros img.
  assert (Hsmall : (h < 96 \/ wd < 96)%nat ->
    ensure_min_size env img w =
      (cv2_resize env img (96, 96)%nat, add_events w [CallResize img (96, 96)%nat])).
  { intros Hlt. unfold ensure_min_size, bind, lift, ret, shape_at, call_resize, emit.
    cbn [shape img lookup list_lookup]. change min_size with 96%nat.
    destruct (h <? 96)%nat eqn:Hh; [reflexivity|].
    destruct (wd <? 96)%nat eqn:Hw; [reflexivity|].
    apply Nat.ltb_ge in Hh, Hw. lia. }
  assert (Hbig : (96 <= h)%nat -> (96 <= wd)%nat ->
    ensure_min_size env img w = (Return img, w)).
  { intros Hh Hw. unfold ensure_min_size, bind, lift, ret, shape_at.
    cbn [shape img lookup list_lookup]. change min_size with 96%nat.
    apply Nat.ltb_ge in Hh, Hw. now rewrite Hh, Hw. }
  split.
  - intros Hlt. split; [now apply Hsmall|].
    intros img1 img2 Hsize Hres Henh.
    assert (Hpre : preprocess env img w =
              (Return img2, add_events w [CallResize img (96, 96)%nat])).
    { unfold preprocess, bind. rewrite (Hsmall Hlt), Hres. unfold lift. now rewrite Henh. }
    eexists _, _. split; [rewrite classify_eq, Hpre; reflexivity|].
    split; [unfold add_events; simpl; now rewrite <- app_assoc|].
    unfold analyze_body, bind. destruct (decide (size img = 0%nat)); [contradiction|].
    rewrite classify_eq, Hpre.
    destruct (first_face _ ++ first_face _); reflexivity.
  - intros Hh Hw. split; [now apply Hbig|].
    unfold preprocess, bind. rewrite (Hbig Hh Hw). reflexivity.
Qed.

Lemma small_images_are_resized_witness :
  (48 < 96 \/ 200 < 96)%nat /\
  ensure_min_size blind narrow fresh =
    (cv2_resize blind narrow (96, 96)%nat,
     add_events fresh [CallResize narrow (96, 96)%nat]).
Proof.
  assert (H : (48 < 96 \/ 200 < 96)%nat) by (left; lia).
  split; [exact H|].
  exact (proj1 (proj1 (small_images_are_resized blind 48 200 [3%nat] [] fresh) H)).
Defined.

(** ** The analyzer object across calls *)

Lemma frame_candidate_label f w label :
  frame_candidate f w = Some label -> label ∈ emotions (self w).
Proof.
  destruct f as [env face_img]. unfold frame_candidate. simpl.
  destruct face_img as [img|]; [|discriminate].
  destruct (decide (size img = 0%nat)); [discriminate|].
  pose proof (keeps_self_classify env img w) as Hself.
  destruct (classify env img w) as [[[|r results]|e] w1]; try discriminate.
  simpl in Hself. destruct (dominant_pick _ _) as [d|e] eqn:Hd; [|discriminate].
  intros [= <-]. rewrite <- Hself. now apply dominant_pick_label in Hd.
Qed.

Lemma analyze_emotion_object env face_img w :
  self (snd (analyze_emotion env face_img w)) =
  match frame_candidate (env, face_img) w with
  | Some label =>
      with_previous_emotions (self w)
        (push_history (smooth_window (self w)) (previous_emotions (self w)) label)
  | None => self w
  end.
Proof. rewrite analyze_emotion_self. apply analyze_body_self. Qed.

Lemma healthy_fresh : healthy (self fresh).
Proof.
  split; simpl; [reflexivity|reflexivity|lia|]. intros x H. inversion H.
Qed.

Lemma healthy_step env face_img w :
  healthy (self w) -> healthy (self (snd (analyze_emotion env face_img w))).
Proof.
  intros [Hem Hw Hlen Hlab]. rewrite analyze_emotion_object.
  destruct (frame_candidate (env, face_img) w) as [label|] eqn:Hc; [|now split].
  apply frame_candidate_label in Hc. rewrite Hem in Hc.
  split; simpl; [exact Hem|exact Hw| |].
  - rewrite Hw. apply push_history_length. exact Hlen.
  - intros x Hx. apply push_history_elem in Hx as [Hx| ->]; auto.
Qed.

Lemma healthy_run frames w :
  healthy (self w) -> healthy (self (run_frames frames w)).
Proof.
  revert w. induction frames as [|[env face_img] frames IH]; intros w Hw; [exact Hw|].
  simpl. apply IH. now apply healthy_step.
Qed.

Lemma smooth_defined hist d avg :
  hist <> [] -> (forall x, x ∈ hist -> x ∈ avg.*1) ->
  exists top v,
    index0 (most_common1 (Counter hist)) = Return top /\
    fst top ∈ hist /\
    dict_get avg (fst top) = Return v /\
    smooth hist d avg = Return (fst top, (v / 100)%Q).
Proof.
  intros Hne Hkeys. destruct (most_common_first hist Hne)
    as (s & p & q & Htop & Hsplit & _).
  assert (Hin : s ∈ hist) by (rewrite Hsplit; apply elem_of_app; right; left).
  destruct (dict_get_key avg s (Hkeys _ Hin)) as [v Hv].
  exists (s, occurrences hist s), v. simpl.
  split; [exact Htop|]. split; [exact Hin|]. split; [exact Hv|].
  unfold smooth. destruct hist as [|x hist]; [congruence|].
  rewrite Htop. simpl. now rewrite Hv.
Qed.

(** C6, as amended.  A call that gets as far as the dominant pick appends
    that candidate to the bounded history, dropping the oldest entry when the
    window is exceeded; every other call leaves the history as it was; and no
    call changes the label list, the window size or the weight table. *)
Theorem call_frame_effect env face_img w :
  let obj := self w in
  let obj' := self (snd (analyze_emotion env face_img w)) in
  emotions obj' = emotions obj /\
  smooth_window obj' = smooth_window obj /\
  emotion_weights obj' = emotion_weights obj /\
  previous_emotions obj' =
    match frame_candidate (env, face_img) w with
    | Some label => push_history (smooth_window obj) (previous_emotions obj) label
    | None => previous_emotions obj
    end.
Proof.
  cbv zeta. rewrite analyze_emotion_object.
  destruct (frame_candidate (env, face_img) w); simpl; auto.
Qed.

(** C6, as stated, fails: a call without an image appends no label at all. *)
Lemma absent_image_appends_nothing :
  ~ exists label,
      previous_emotions (self (snd (analyze_emotion blind None fresh))) =
      push_history (smooth_window (self fresh)) (previous_emotions (self fresh)) label.
Proof. intros [label H]. vm_compute in H. discriminate. Qed.

(** C3.  An analyzer that is only used through [analyze_emotion] never holds
    more than two labels, and the window is first-in first-out: after calls
    with candidates A and B the history is [A; B], and a call with candidate C
    then leaves [B; C]; the same holds from any state with window 2 and
    history [A; B]. *)
Theorem history_bounded_fifo :
  (forall frames,
     (length (previous_emotions (self (run_frames frames fresh))) <= 2)%nat) /\
  (forall f1 f2 f3 A B C,
     frame_candidate f1 fresh = Some A ->
     frame_candidate f2 (run_frames [f1] fresh) = Some B ->
     frame_candidate f3 (run_frames [f1; f2] fresh) = Some C ->
     previous_emotions (self (run_frames [f1; f2] fresh)) = [A; B] /\
     previous_emotions (self (run_frames [f1; f2; f3] fresh)) = [B; C]) /\
  (forall env face_img w A B C,
     smooth_window (self w) = 2%nat ->
     previous_emotions (self w) = [A; B] ->
     frame_candidate (env, face_img) w = Some C ->
     previous_emotions (self (snd (analyze_emotion env face_img w))) = [B; C]).
Proof.
  split; [|split].
  - intros frames. apply healthy_length, healthy_run, healthy_fresh.
  - intros [e1 i1] [e2 i2] [e3 i3] A B C H1 H2 H3. simpl in *.
    set (w1 := snd (analyze_emotion e1 i1 fresh)) in *.
    set (w2 := snd (analyze_emotion e2 i2 w1)) in *.
    assert (Hw1 : self w1 = with_previous_emotions init [A]).
    { unfold w1. rewrite analyze_emotion_object, H1. reflexivity. }
    assert (Hw2 : self w2 = with_previous_emotions init [A; B]).
    { unfold w2. rewrite analyze_emotion_object, H2, Hw1. reflexivity. }
    split; [now rewrite Hw2|].
    rewrite analyze_emotion_object, H3, Hw2. reflexivity.
  - intros env face_img w A B C Hw Hh Hc.
    rewrite analyze_emotion_object, Hc, Hw, Hh. reflexivity.
Qed.

Lemma history_bounded_fifo_witness :
  frame_candidate happy_frame fresh = Some "happy" /\
  frame_candidate sad_frame (run_frames [happy_frame] fresh) = Some "sad" /\
  frame_candidate angry_frame (run_frames [happy_frame; sad_frame] fresh)
    = Some "angry" /\
  previous_emotions (self (run_frames [happy_frame; sad_frame] fresh))
    = ["happy"; "sad"] /\
  previous_emotions (self (run_frames [happy_frame; sad_frame; angry_frame] fresh))
    = ["sad"; "angry"].
Proof.
  assert (H1 : frame_candidate happy_frame fresh = Some "happy")
    by (vm_compute; reflexivity).
  assert (H2 : frame_candidate sad_frame (run_frames [happy_frame] fresh) = Some "sad")
    by (vm_compute; reflexivity).
  assert (H3 : frame_candidate angry_frame (run_frames [happy_frame; sad_frame] fresh)
                 = Some "angry") by (vm_compute; reflexivity).
  split; [exact H1|]. split; [exact H2|]. split; [exact H3|].
  exact (proj1 (proj2 history_bounded_fifo)
           happy_frame sad_frame angry_frame "happy" "sad" "angry" H1 H2 H3).
Defined.

(** C10.  In every state reached from a fresh analyzer the history holds
    only the seven labels, and so does every candidate appended next;
    hence the dominant pick is defined, the look-up of the smoothed label in
    the averaged scores finds its key, and the stabilizing part of the call
    returns normally: no [KeyError] can arise. *)
Theorem history_labels_known frames :
  let w := run_frames frames fresh in
  let obj := self w in
  (forall x, x ∈ previous_emotions obj -> x ∈ emotions init) /\
  (forall f label, frame_candidate f w = Some label -> label ∈ emotions init) /\
  (forall results,
     let avg := average_scores (emotions obj) results in
     exists d top v,
       dominant_pick obj results = Return d /\
       let hist :=
         push_history (smooth_window obj) (previous_emotions obj) (fst d) in
       index0 (most_common1 (Counter hist)) = Return top /\
       fst top ∈ emotions init /\
       dict_get avg (fst top) = Return v /\
       smooth hist d avg = Return (fst top, (v / 100)%Q)) /\
  (forall results, exists r w', stabilize results w = (Return r, w')).
Proof.
  intros w obj. unfold obj.
  destruct (healthy_run frames fresh healthy_fresh) as [Hem Hw Hlen Hlab].
  fold w in Hem, Hw, Hlen, Hlab.
  assert (Hsmooth : forall results,
    exists d top v,
      dominant_pick (self w) results = Return d /\
      index0 (most_common1 (Counter
        (push_history (smooth_window (self w)) (previous_emotions (self w)) (fst d))))
        = Return top /\
      fst top ∈ emotions init /\
      dict_get (average_scores (emotions (self w)) results) (fst top) = Return v /\
      smooth
        (push_history (smooth_window (self w)) (previous_emotions (self w)) (fst d))
        d (average_scores (emotions (self w)) results) = Return (fst top, (v / 100)%Q)).
  { intros results.
    destruct (dominant_pick_defined (self w) results) as [d Hd];
      [rewrite Hem; discriminate|].
    assert (Hd' : fst d ∈ emotions init)
      by (rewrite <- Hem; now apply dominant_pick_label in Hd).
    assert (Hhist : forall x,
      x ∈ push_history (smooth_window (self w)) (previous_emotions (self w)) (fst d) ->
      x ∈ emotions init).
    { intros x Hx. apply push_history_elem in Hx as [Hx| ->]; auto. }
    destruct (smooth_defined
      (push_history (smooth_window (self w)) (previous_emotions (self w)) (fst d))
      d (average_scores (emotions (self w)) results))
      as (top & v & Htop & Hin & Hget & Hs).
    - apply push_history_nonempty. rewrite Hw. lia.
    - intros x Hx. apply average_scores_keys. rewrite Hem. auto.
    - exists d, top, v. auto 10. }
  split; [exact Hlab|]. split; [|split].
  - intros f label Hf. rewrite <- Hem. now apply frame_candidate_label in Hf.
  - intros results. cbv zeta. apply Hsmooth.
  - intros results. rewrite stabilize_eq.
    destruct (Hsmooth results) as (d & top & v & Hd & _ & _ & _ & Hs).
    rewrite Hd. cbv zeta. rewrite Hs.
    destruct (subtle_check_total (average_scores (emotions (self w)) results)
      (fst top, (v / 100)%Q)) as [r Hr]. rewrite Hr. eauto.
Qed.


Lemma history_labels_known_witness :
  frame_candidate angry_frame (run_frames [happy_frame; sad_frame] fresh) = Some "angry" /\
  "angry" ∈ emotions init.
Proof.
  assert (H : frame_candidate angry_frame (run_frames [happy_frame; sad_frame] fresh)
                = Some "angry") by (vm_compute; reflexivity).
  split; [exact H|].
  exact (proj1 (proj2 (history_labels_known [happy_frame; sad_frame])) _ _ H).
Defined.

(** * Further properties *)

(** ** The presentation lookups *)

Lemma known_label_cases (P : string -> Prop) :
  P "angry" -> P "disgust" -> P "fear" -> P "happy" -> P "sad" ->
  P "surprise" -> P "neutral" ->
  forall e, e ∈ emotions init -> P e.
Proof.
  intros Ha Hd Hf Hh Hs Hp Hn e He. simpl in He.
  repeat (apply elem_of_cons in He as [->|He]; [assumption|]).
  inversion He.
Qed.

Ltac distinct_on f :=
  intros e1 e2 H1 H2; revert e2 H2; revert e1 H1;
  refine (known_label_cases
            (fun e1 => forall e2, e2 ∈ emotions init -> f e1 = f e2 -> e1 = e2)
            _ _ _ _ _ _ _);
  match goal with
  | |- forall e2, _ -> f ?a = _ -> _ =>
      refine (known_label_cases (fun e2 => f a = f e2 -> a = e2) _ _ _ _ _ _ _)
  end;
  first [ intros _; reflexivity
        | let H := fresh in intros H; vm_compute in H; discriminate H ].

Ltac never_default f dflt :=
  refine (known_label_cases (fun e => f e <> dflt) _ _ _ _ _ _ _);
  let H := fresh in intros H; vm_compute in H; discriminate H.

Ltac lookup_cases H :=
  cbn [dict_get]; repeat case_decide; subst; try reflexivity; try discriminate;
  try (exfalso; apply H; simpl; repeat constructor).

Lemma color_of_label e :
  e ∈ emotions init -> get_emotion_color e <> (128, 128, 128)%Z.
Proof. revert e. never_default get_emotion_color (128, 128, 128)%Z. Qed.

Lemma emoji_of_label e : e ∈ emotions init -> get_emotion_emoji e <> "❓".
Proof. revert e. never_default get_emotion_emoji "❓". Qed.

Lemma description_of_label format_percent e c :
  e ∈ emotions init ->
  get_emotion_description format_percent e c <> "Unable to determine emotion".
Proof.
  revert e.
  never_default (fun e => get_emotion_description format_percent e c)
    "Unable to determine emotion".
Qed.

(** X1.  [get_emotion_color] sends every string that is not one of the seven
    labels, 'unknown' included, to gray (128, 128, 128); the seven labels get
    seven different colours, none of them gray; and every component of every
    colour is a byte. *)
Theorem emotion_colors :
  (forall e, e ∉ emotions init -> get_emotion_color e = (128, 128, 128)%Z) /\
  (forall e, e ∈ emotions init -> get_emotion_color e <> (128, 128, 128)%Z) /\
  (forall e1 e2,
     e1 ∈ emotions init -> e2 ∈ emotions init ->
     get_emotion_color e1 = get_emotion_color e2 -> e1 = e2) /\
  (forall e,
     (0 <= fst (fst (get_emotion_color e)) <= 255)%Z /\
     (0 <= snd (fst (get_emotion_color e)) <= 255)%Z /\
     (0 <= snd (get_emotion_color e) <= 255)%Z).
Proof.
  split; [|split; [|split]].
  - intros e He. unfold get_emotion_color, dict_get_default, color_map.
    lookup_cases He.
  - apply color_of_label.
  - distinct_on get_emotion_color.
  - intros e. unfold get_emotion_color, dict_get_default, color_map.
    cbn [dict_get]. repeat case_decide; simpl; lia.
Qed.

Lemma emotion_colors_witness :
  "sad" ∈ emotions init /\ get_emotion_color "sad" <> (128, 128, 128)%Z.
Proof.
  assert (H : "sad" ∈ emotions init) by (simpl; repeat constructor).
  split; [exact H|]. exact (proj1 (proj2 emotion_colors) "sad" H).
Defined.

(** X2.  [get_emotion_emoji] sends every string that is not one of the seven
    labels, 'unknown' included, to the question mark; the seven labels get
    seven different glyphs, none of them the question mark. *)
Theorem emotion_emojis :
  (forall e, e ∉ emotions init -> get_emotion_emoji e = "❓") /\
  (forall e, e ∈ emotions init -> get_emotion_emoji e <> "❓") /\
  (forall e1 e2,
     e1 ∈ emotions init -> e2 ∈ emotions init ->
     get_emotion_emoji e1 = get_emotion_emoji e2 -> e1 = e2).
Proof.
  split; [|split].
  - intros e He. unfold get_emotion_emoji, dict_get_default, emoji_map.
    lookup_cases He.
  - apply emoji_of_label.
  - distinct_on get_emotion_emoji.
Qed.

Lemma emotion_emojis_witness :
  "fear" ∈ emotions init /\ get_emotion_emoji "fear" <> "❓".
Proof.
  assert (H : "fear" ∈ emotions init) by (simpl; repeat constructor).
  split; [exact H|]. exact (proj1 (proj2 emotion_emojis) "fear" H).
Defined.

(** X3.  [get_emotion_description], whatever the float formatting does:
    a string that is not one of the seven labels gives 'Unable to determine
    emotion' and the confidence is ignored; a label never gives that text;
    and the descriptions of two different labels differ, even at different
    confidences, so the text identifies the label. *)
Theorem emotion_descriptions (format_percent : Q -> string) :
  (forall e c,
     e ∉ emotions init ->
     get_emotion_description format_percent e c = "Unable to determine emotion") /\
  (forall e c,
     e ∈ emotions init ->
     get_emotion_description format_percent e c <> "Unable to determine emotion") /\
  (forall e1 e2 c1 c2,
     e1 ∈ emotions init -> e2 ∈ emotions init ->
     get_emotion_description format_percent e1 c1
       = get_emotion_description format_percent e2 c2 ->
     e1 = e2).
Proof.
  split; [|split].
  - intros e c He. unfold get_emotion_description, dict_get_default, descriptions.
    lookup_cases He.
  - intros e c. apply description_of_label.
  - intros e1 e2 c1 c2 H1 H2. revert e2 H2. revert e1 H1.
    refine (known_label_cases
              (fun e1 => forall e2, e2 ∈ emotions init ->
                 get_emotion_description format_percent e1 c1
                   = get_emotion_description format_percent e2 c2 -> e1 = e2)
              _ _ _ _ _ _ _);
    match goal with
    | |- forall e2, _ -> get_emotion_description _ ?a _ = _ -> _ =>
        refine (known_label_cases
                  (fun e2 => get_emotion_description format_percent a c1
                             = get_emotion_description format_percent e2 c2 -> a = e2)
                  _ _ _ _ _ _ _)
    end;
    first [ intros _; reflexivity
          | let H := fresh in intros H; cbv in H; discriminate H ].
Qed.

Lemma emotion_descriptions_witness :
  "happy" ∈ emotions init /\
  get_emotion_description (fun _ => "70%") "happy" (7 # 10)
    <> "Unable to determine emotion".
Proof.
  assert (H : "happy" ∈ emotions init) by (simpl; repeat constructor).
  split; [exact H|].
  exact (proj1 (proj2 (emotion_descriptions (fun _ => "70%"))) "happy" (7 # 10)%Q H).
Defined.

(** ** More on the pipeline *)

Lemma average_scores_get em results k :
  k ∈ em -> dict_get (average_scores em results) k = Return (mean_score results k).
Proof.
  intros Hk. destruct (dict_get_key (average_scores em results) k) as [v Hv].
  - now apply average_scores_keys.
  - rewrite Hv. apply dict_get_elem, average_scores_elem in Hv as [_ ->]. reflexivity.
Qed.

Lemma subtle_check_other avg s : fst s <> "neutral" -> subtle_check avg s = Return s.
Proof.
  intros H. unfold subtle_check. destruct (decide (fst s = "neutral")); [contradiction|].
  reflexivity.
Qed.

(** A call that collects results and picks a candidate: what is left to do. *)
Lemma analyze_body_picked env img w results w1 d :
  size img <> 0%nat ->
  classify env img w = (Return results, w1) ->
  results <> [] ->
  dominant_pick (self w) results = Return d ->
  analyze_body env (Some img) w =
    let avg := average_scores (emotions (self w)) results in
    let hist :=
      push_history (smooth_window (self w)) (previous_emotions (self w)) (fst d) in
    let w' := {| self := with_previous_emotions (self w) hist; trace := trace w1 |} in
    match smooth hist d avg with
    | Raise e => (Raise e, w')
    | Return s => (subtle_check avg s, w')
    end.
Proof.
  intros Hsize Hc Hne Hd.
  pose proof (keeps_self_classify env img w) as Hself. rewrite Hc in Hself.
  simpl in Hself.
  rewrite (analyze_body_reaches _ _ _ _ _ Hsize Hc Hne), stabilize_eq, Hself, Hd.
  reflexivity.
Qed.

Lemma analyze_emotion_known_label env face_img w :
  emotions (self w) = emotions init ->
  exists label conf w',
    analyze_emotion env face_img w = (Return (label, conf), w') /\
    label ∈ emotions init.
Proof.
  intros Hem. rewrite analyze_emotion_eq.
  destruct face_img as [img|]; simpl;
    [|exists "neutral", 0%Q, w; auto using neutral_known].
  destruct (decide (size img = 0%nat));
    [exists "neutral", 0%Q, w; auto using neutral_known|].
  unfold bind. pose proof (keeps_self_classify env img w) as Hself.
  destruct (classify env img w) as [[results|e] w1];
    [|eexists "neutral", (1 # 10)%Q, _; auto using neutral_known].
  simpl in Hself. destruct results as [|r0 results];
    [exists "neutral", 0%Q, w1; auto using neutral_known|].
  destruct (stabilize (r0 :: results) w1) as [[[label conf]|e] w2] eqn:Hst;
    [|eexists "neutral", (1 # 10)%Q, _; auto using neutral_known].
  exists label, conf, w2. split; [reflexivity|].
  apply stabilize_returns in Hst as [Hlabel _]. simpl in Hlabel.
  now rewrite Hself, Hem in Hlabel.
Qed.

(** X4.  Whatever a call on an analyzer with the constructor's label list
    returns, the three lookups answer for its label with an entry of their
    own: never the gray, the question mark or the 'Unable to determine
    emotion' of an unrecognised key. *)
Theorem analyzer_output_is_presentable env face_img w format_percent :
  emotions (self w) = emotions init ->
  exists label conf w',
    analyze_emotion env face_img w = (Return (label, conf), w') /\
    get_emotion_color label <> (128, 128, 128)%Z /\
    get_emotion_emoji label <> "❓" /\
    get_emotion_description format_percent label conf <> "Unable to determine emotion".
Proof.
  intros Hem.
  destruct (analyze_emotion_known_label env face_img w Hem)
    as (label & conf & w' & Hr & Hl).
  exists label, conf, w'.
  auto using color_of_label, emoji_of_label, description_of_label.
Qed.

Lemma analyzer_output_is_presentable_witness :
  emotions (self fresh) = emotions init /\
  exists label conf w',
    analyze_emotion blind (Some flat) fresh = (Return (label, conf), w') /\
    get_emotion_color label <> (128, 128, 128)%Z /\
    get_emotion_emoji label <> "❓" /\
    get_emotion_description (fun _ => "10%") label conf <> "Unable to determine emotion".
Proof.
  split; [reflexivity|].
  exact (analyzer_output_is_presentable blind (Some flat) fresh (fun _ => "10%") eq_refl).
Defined.

(** X5.  With the window of 2, once the history holds a label, a call that
    collects results smooths to the label appended by the previous such call,
    not to its own candidate, and reports the current frame's averaged score
    of that older label; the history becomes [older label; candidate].  When
    the older label is not neutral this pair is what the call returns. *)
Theorem smoothing_lags_one_frame env img w results w1 d older P :
  size img <> 0%nat ->
  classify env img w = (Return results, w1) ->
  results <> [] ->
  dominant_pick (self w) results = Return d ->
  smooth_window (self w) = 2%nat ->
  previous_emotions (self w) = older ++ [P] ->
  (length older <= 1)%nat ->
  P ∈ emotions (self w) ->
  let avg := average_scores (emotions (self w)) results in
  let w' := {| self := with_previous_emotions (self w) [P; fst d];
               trace := trace w1 |} in
  smooth [P; fst d] d avg = Return (P, (mean_score results P / 100)%Q) /\
  analyze_body env (Some img) w
    = (subtle_check avg (P, (mean_score results P / 100)%Q), w') /\
  (P <> "neutral" ->
   analyze_emotion env (Some img) w
     = (Return (P, (mean_score results P / 100)%Q), w')).
Proof.
  intros Hsize Hc Hne Hd Hw Hh Hlen HP avg w'.
  assert (Hpush : push_history (smooth_window (self w)) (previous_emotions (self w))
                    (fst d) = [P; fst d]).
  { rewrite Hw, Hh. destruct older as [|o [|o' older]]; simpl in Hlen; try lia;
      reflexivity. }
  assert (Hs : smooth [P; fst d] d avg = Return (P, (mean_score results P / 100)%Q)).
  { unfold smooth, most_common1, Counter, count_one, dict_get_default. simpl.
    destruct (decide (P = fst d)); simpl; unfold avg;
      now rewrite (average_scores_get _ _ _ HP). }
  assert (Hbody : analyze_body env (Some img) w
                  = (subtle_check avg (P, (mean_score results P / 100)%Q), w')).
  { rewrite (analyze_body_picked _ _ _ _ _ _ Hsize Hc Hne Hd). cbv zeta.
    rewrite Hpush. fold avg. now rewrite Hs. }
  split; [exact Hs|]. split; [exact Hbody|].
  intros Hn. rewrite analyze_emotion_eq, Hbody, subtle_check_other; [reflexivity|exact Hn].
Qed.

Lemma smoothing_lags_one_frame_witness :
  size (grid 100 100) <> 0%nat /\
  classify (steady sad_happy_tie) (grid 100 100)
    {| self := with_previous_emotions init ["angry"]; trace := [] |}
    = (Return (twice sad_happy_tie),
       {| self := with_previous_emotions init ["angry"]; trace := trace seen |}) /\
  analyze_emotion (steady sad_happy_tie) (Some (grid 100 100))
    {| self := with_previous_emotions init ["angry"]; trace := [] |}
    = (Return ("angry", (mean_score (twice sad_happy_tie) "angry" / 100)%Q),
       {| self := with_previous_emotions init ["angry"; "sad"]; trace := trace seen |}).
Proof.
  assert (Hsize : size (grid 100 100) <> 0%nat) by (apply grid_not_empty; lia).
  assert (Hc : classify (steady sad_happy_tie) (grid 100 100)
                 {| self := with_previous_emotions init ["angry"]; trace := [] |}
               = (Return (twice sad_happy_tie),
                  {| self := with_previous_emotions init ["angry"];
                     trace := trace seen |})) by (vm_compute; reflexivity).
  assert (Hne : twice sad_happy_tie <> []) by discriminate.
  assert (Hd : dominant_pick init (twice sad_happy_tie) = Return ("sad", (1200 # 20)%Q))
    by (vm_compute; reflexivity).
  assert (HP : "angry" ∈ emotions init) by (simpl; repeat constructor).
  assert (Hn : "angry" <> "neutral") by discriminate.
  split; [exact Hsize|]. split; [exact Hc|].
  exact (proj2 (proj2 (smoothing_lags_one_frame (steady sad_happy_tie) (grid 100 100)
           {| self := with_previous_emotions init ["angry"]; trace := [] |}
           (twice sad_happy_tie)
           {| self := with_previous_emotions init ["angry"]; trace := trace seen |}
           ("sad", (1200 # 20)%Q) [] "angry"
           Hsize Hc Hne Hd eq_refl eq_refl (le_S _ _ (le_n 0)) HP)) Hn).
Defined.

(** X6.  Smoothing does nothing on the first frame or with a window of at
    most 1: when the history is empty, or the window is 0 or 1 and the
    history fits in it, a call that collects results smooths to its own
    candidate with that candidate's averaged score, and returns this pair
    when the candidate is not neutral. *)
Theorem no_smoothing_without_past env img w results w1 d :
  size img <> 0%nat ->
  classify env img w = (Return results, w1) ->
  results <> [] ->
  dominant_pick (self w) results = Return d ->
  previous_emotions (self w) = [] \/
  ((smooth_window (self w) <= 1)%nat /\
   (length (previous_emotions (self w)) <= smooth_window (self w))%nat) ->
  let avg := average_scores (emotions (self w)) results in
  let hist :=
    push_history (smooth_window (self w)) (previous_emotions (self w)) (fst d) in
  let w' := {| self := with_previous_emotions (self w) hist; trace := trace w1 |} in
  hist = (if decide (smooth_window (self w) = 0%nat) then [] else [fst d]) /\
  analyze_body env (Some img) w
    = (subtle_check avg (fst d, (mean_score results (fst d) / 100)%Q), w') /\
  (fst d <> "neutral" ->
   analyze_emotion env (Some img) w
     = (Return (fst d, (mean_score results (fst d) / 100)%Q), w')).
Proof.
  intros Hsize Hc Hne Hd Hpast avg hist w'.
  assert (Hhist : hist = if decide (smooth_window (self w) = 0%nat) then []
                         else [fst d]).
  { unfold hist, push_history.
    destruct Hpast as [->|[Hw Hlen]].
    - simpl. destruct (smooth_window (self w)); reflexivity.
    - destruct (smooth_window (self w)) as [|[|n]]; [| |lia];
        destruct (previous_emotions (self w)) as [|x [|y l]]; simpl in Hlen;
        try lia; reflexivity. }
  assert (Hget : dict_get avg (fst d) = Return (mean_score results (fst d))).
  { apply average_scores_get. now apply dominant_pick_label in Hd. }
  assert (Hs : smooth hist d avg
               = Return (fst d, (mean_score results (fst d) / 100)%Q)).
  { rewrite Hhist. destruct (decide (smooth_window (self w) = 0%nat)).
    - unfold smooth. now rewrite Hget.
    - unfold smooth, most_common1, Counter, count_one, dict_get_default. simpl.
      now rewrite Hget. }
  assert (Hbody : analyze_body env (Some img) w
            = (subtle_check avg (fst d, (mean_score results (fst d) / 100)%Q), w')).
  { rewrite (analyze_body_picked _ _ _ _ _ _ Hsize Hc Hne Hd). cbv zeta.
    fold avg hist. now rewrite Hs. }
  split; [exact Hhist|]. split; [exact Hbody|].
  intros Hn. rewrite analyze_emotion_eq, Hbody, subtle_check_other; [reflexivity|exact Hn].
Qed.

Lemma no_smoothing_without_past_witness :
  size (grid 100 100) <> 0%nat /\
  classify (steady sad_happy_tie) (grid 100 100) fresh
    = (Return (twice sad_happy_tie), seen) /\
  analyze_emotion (steady sad_happy_tie) (Some (grid 100 100)) fresh
    = (Return ("sad", (mean_score (twice sad_happy_tie) "sad" / 100)%Q),
       {| self := with_previous_emotions init (push_history 2 [] "sad");
          trace := trace seen |}).
Proof.
  assert (Hsize : size (grid 100 100) <> 0%nat) by (apply grid_not_empty; lia).
  assert (Hc : classify (steady sad_happy_tie) (grid 100 100) fresh
               = (Return (twice sad_happy_tie), seen)) by (vm_compute; reflexivity).
  assert (Hne : twice sad_happy_tie <> []) by discriminate.
  assert (Hd : dominant_pick init (twice sad_happy_tie) = Return ("sad", (1200 # 20)%Q))
    by (vm_compute; reflexivity).
  assert (Hn : "sad" <> "neutral") by discriminate.
  split; [exact Hsize|]. split; [exact Hc|].
  exact (proj2 (proj2 (no_smoothing_without_past (steady sad_happy_tie) (grid 100 100)
           fresh (twice sad_happy_tie) seen ("sad", (1200 # 20)%Q)
           Hsize Hc Hne Hd (or_introl eq_refl))) Hn).
Defined.

(** ** Any window, any starting state *)

Lemma push_history_grows window history label :
  (length history <= length (push_history window history label))%nat.
Proof.
  unfold push_history.
  destruct (window <? length (history ++ [label]))%nat;
    rewrite ?length_drop, length_app; simpl; lia.
Qed.

Lemma push_history_full window history label :
  (window <= length history)%nat ->
  length (push_history window history label) = length history.
Proof.
  unfold push_history. intros H.
  destruct (window <? length (history ++ [label]))%nat eqn:Hlt.
  - rewrite length_drop, length_app. simpl. lia.
  - apply Nat.ltb_ge in Hlt. rewrite length_app in Hlt. simpl in Hlt. lia.
Qed.

(** X7.  Whatever the window size and the starting state, a run of calls
    keeps a history that fits in the window within the window, leaves the
    window size, the label list and the weight table as they were, and puts
    nothing into the history but labels of the label list. *)
Theorem window_respected frames w :
  (length (previous_emotions (self w)) <= smooth_window (self w))%nat ->
  let obj := self w in
  let obj' := self (run_frames frames w) in
  (length (previous_emotions obj') <= smooth_window obj)%nat /\
  smooth_window obj' = smooth_window obj /\
  emotions obj' = emotions obj /\
  emotion_weights obj' = emotion_weights obj /\
  (forall x, x ∈ previous_emotions obj' ->
             x ∈ previous_emotions obj \/ x ∈ emotions obj).
Proof.
  cbv zeta. revert w. induction frames as [|[env face_img] frames IH]; intros w Hlen.
  - simpl. repeat split; auto.
  - simpl run_frames. simpl fst. simpl snd.
    set (w1 := snd (analyze_emotion env face_img w)).
    assert (Hobj : self w1 =
      match frame_candidate (env, face_img) w with
      | Some label =>
          with_previous_emotions (self w)
            (push_history (smooth_window (self w)) (previous_emotions (self w)) label)
      | None => self w
      end) by apply analyze_emotion_object.
    assert (Hw : smooth_window (self w1) = smooth_window (self w))
      by (rewrite Hobj; now destruct (frame_candidate _ _)).
    assert (He : emotions (self w1) = emotions (self w))
      by (rewrite Hobj; now destruct (frame_candidate _ _)).
    assert (Hg : emotion_weights (self w1) = emotion_weights (self w))
      by (rewrite Hobj; now destruct (frame_candidate _ _)).
    assert (Hl : (length (previous_emotions (self w1)) <= smooth_window (self w))%nat).
    { rewrite Hobj. destruct (frame_candidate _ _); [|exact Hlen].
      simpl. now apply push_history_length. }
    assert (Hin : forall x, x ∈ previous_emotions (self w1) ->
                    x ∈ previous_emotions (self w) \/ x ∈ emotions (self w)).
    { intros x. rewrite Hobj.
      destruct (frame_candidate _ _) as [label|] eqn:Hc; [|now left].
      simpl. intros Hx. apply push_history_elem in Hx as [Hx| ->]; [now left|].
      right. now apply frame_candidate_label in Hc. }
    destruct (IH w1) as (H1 & H2 & H3 & H4 & H5); [now rewrite Hw|].
    rewrite Hw in H1, H2. rewrite He in H3, H5. rewrite Hg in H4.
    repeat split; try assumption.
    intros x Hx. destruct (H5 x Hx) as [Hx'|Hx']; auto.
Qed.

Lemma window_respected_witness :
  (length (previous_emotions (self fresh)) <= smooth_window (self fresh))%nat /\
  (length (previous_emotions
             (self (run_frames [happy_frame; sad_frame; angry_frame] fresh)))
   <= smooth_window (self fresh))%nat.
Proof.
  assert (H : (length (previous_emotions (self fresh)) <= smooth_window (self fresh))%nat)
    by (simpl; lia).
  split; [exact H|].
  exact (proj1 (window_respected [happy_frame; sad_frame; angry_frame] fresh H)).
Defined.

(** X8.  The history never gets shorter, and once it holds at least as many
    labels as the window allows its length never changes again: a call drops
    one label at most, so a history longer than the window stays that long. *)
Theorem history_never_shrinks frames w :
  (length (previous_emotions (self w))
   <= length (previous_emotions (self (run_frames frames w))))%nat /\
  ((smooth_window (self w) <= length (previous_emotions (self w)))%nat ->
   length (previous_emotions (self (run_frames frames w)))
   = length (previous_emotions (self w))).
Proof.
  revert w. induction frames as [|[env face_img] frames IH]; intros w.
  - simpl. auto.
  - simpl run_frames. simpl fst. simpl snd.
    set (w1 := snd (analyze_emotion env face_img w)).
    assert (Hobj : self w1 =
      match frame_candidate (env, face_img) w with
      | Some label =>
          with_previous_emotions (self w)
            (push_history (smooth_window (self w)) (previous_emotions (self w)) label)
      | None => self w
      end) by apply analyze_emotion_object.
    destruct (IH w1) as [Hge Heq]. rewrite Hobj in Hge, Heq.
    destruct (frame_candidate (env, face_img) w) as [label|]; simpl in Hge, Heq.
    + split.
      * pose proof (push_history_grows (smooth_window (self w))
                      (previous_emotions (self w)) label). lia.
      * intros Hfull. rewrite Heq; rewrite push_history_full; auto.
    + auto.
Qed.

Lemma history_never_shrinks_witness :
  (smooth_window (with_previous_emotions init ["sad"; "sad"; "happy"])
   <= length ["sad"; "sad"; "happy"])%nat /\
  length (previous_emotions (self (run_frames [happy_frame; angry_frame]
            {| self := with_previous_emotions init ["sad"; "sad"; "happy"];
               trace := [] |})))
  = length ["sad"; "sad"; "happy"].
Proof.
  assert (H : (smooth_window (with_previous_emotions init ["sad"; "sad"; "happy"])
               <= length ["sad"; "sad"; "happy"])%nat) by (simpl; lia).
  split; [exact H|].
  exact (proj2 (history_never_shrinks [happy_frame; angry_frame]
           {| self := with_previous_emotions init ["sad"; "sad"; "happy"];
              trace := [] |}) H).
Defined.

(** ** The calls to the foreign libraries *)

Lemma preprocess_events env img w :
  exists evs,
    trace (snd (preprocess env img w)) = trace w ++ evs /\
    (evs = [] \/ evs = [CallResize img (min_size, min_size)]).
Proof.
  unfold preprocess, ensure_min_size, bind, lift, ret, call_resize, emit.
  destruct (shape_at img 0) as [h|e]; [|exists []; rewrite app_nil_r; auto].
  destruct (h <? min_size)%nat.
  - simpl. destruct (cv2_resize env img (min_size, min_size)) as [img1|e]; simpl;
      [destruct (enhance_contrast env img1)|]; simpl; eauto.
  - destruct (shape_at img 1) as [wd|e]; [|exists []; rewrite app_nil_r; auto].
    destruct (wd <? min_size)%nat; simpl.
    + destruct (cv2_resize env img (min_size, min_size)) as [img1|e]; simpl;
        [destruct (enhance_contrast env img1)|]; simpl; eauto.
    + exists []. rewrite app_nil_r.
      destruct (enhance_contrast env img); simpl; auto.
Qed.

Lemma analyze_calls_app a b :
  analyze_calls (a ++ b) = analyze_calls a ++ analyze_calls b.
Proof. apply omap_app. Qed.

Lemma resize_calls_app a b :
  resize_calls (a ++ b) = resize_calls a ++ resize_calls b.
Proof. apply omap_app. Qed.

Lemma warnings_app a b : warnings (a ++ b) = warnings a ++ warnings b.
Proof. apply omap_app. Qed.

Lemma attempt_log_quiet label o :
  analyze_calls (attempt_log label o) = [] /\
  resize_calls (attempt_log label o) = [] /\
  (length (warnings (attempt_log label o)) <= 1)%nat.
Proof. destruct o as [[|r rs]|e]; simpl; auto. Qed.

(** X9.  A call invokes the classifier either not at all or exactly twice,
    first with the default detector and then with the opencv one, both times
    on the image that came out of the preprocessing: not at all for an absent
    or empty image or when the preprocessing raises, twice otherwise.  It
    calls [cv2.resize] at most once and logs at most two warnings, and the
    trace it found is kept as a prefix. *)
Theorem classifier_call_discipline env face_img w :
  exists evs,
    trace (snd (analyze_emotion env face_img w)) = trace w ++ evs /\
    analyze_calls evs =
      match face_img with
      | None => []
      | Some img =>
          if decide (size img = 0%nat) then []
          else match fst (preprocess env img w) with
               | Return img' => [(DefaultBackend, img'); (OpenCV, img')]
               | Raise _ => []
               end
      end /\
    (length (resize_calls evs) <= 1)%nat /\
    (length (warnings evs) <= 2)%nat.
Proof.
  rewrite analyze_emotion_eq.
  destruct face_img as [img|]; simpl;
    [|exists []; rewrite app_nil_r; simpl; auto with lia].
  destruct (decide (size img = 0%nat));
    [exists []; rewrite app_nil_r; simpl; auto with lia|].
  unfold bind. rewrite classify_eq.
  destruct (preprocess_events env img w) as (evs0 & Htr & Hevs0).
  assert (H0 : analyze_calls evs0 = [] /\ (length (resize_calls evs0) <= 1)%nat /\
               warnings evs0 = []).
  { destruct Hevs0 as [->| ->]; simpl; auto. }
  destruct H0 as (Hc0 & Hr0 & Hw0).
  destruct (preprocess env img w) as [[img'|e] w1]; simpl in Htr |- *.
  2:{ exists (evs0 ++ [LogError ("Error in emotion analysis: " +:+ str e)]).
      rewrite analyze_calls_app, resize_calls_app, warnings_app, Hc0, Hw0, Htr,
        length_app, app_assoc. simpl.
      split; [reflexivity|]. split; [reflexivity|]. lia. }
  set (o1 := DeepFace_analyze env DefaultBackend img').
  set (o2 := DeepFace_analyze env OpenCV img').
  set (cls := CallAnalyze DefaultBackend img' :: attempt_log "First" o1 ++
              CallAnalyze OpenCV img' :: attempt_log "Second" o2).
  destruct (attempt_log_quiet "First" o1) as (Ha1 & Hr1 & Hw1).
  destruct (attempt_log_quiet "Second" o2) as (Ha2 & Hr2 & Hw2).
  assert (Hcls : analyze_calls cls = [(DefaultBackend, img'); (OpenCV, img')] /\
                 resize_calls cls = [] /\ (length (warnings cls) <= 2)%nat).
  { replace cls with ([CallAnalyze DefaultBackend img'] ++ attempt_log "First" o1 ++
                        [CallAnalyze OpenCV img'] ++ attempt_log "Second" o2)
      by reflexivity.
    rewrite !analyze_calls_app, !resize_calls_app, !warnings_app, Ha1, Ha2, Hr1, Hr2,
      !length_app.
    split; [reflexivity|]. split; [reflexivity|]. simpl. lia. }
  destruct Hcls as (Hca & Hcr & Hcw). clearbody cls.
  assert (Hfin : forall tail,
    analyze_calls tail = [] -> resize_calls tail = [] -> warnings tail = [] ->
    analyze_calls (evs0 ++ cls ++ tail) = [(DefaultBackend, img'); (OpenCV, img')] /\
    (length (resize_calls (evs0 ++ cls ++ tail)) <= 1)%nat /\
    (length (warnings (evs0 ++ cls ++ tail)) <= 2)%nat).
  { intros tail Ht1 Ht2 Ht3.
    rewrite !analyze_calls_app, !resize_calls_app, !warnings_app,
      Hc0, Hca, Hcr, Hw0, Ht1, Ht2, Ht3, !length_app, !app_nil_r.
    simpl. split; [reflexivity|]. split; lia. }
  destruct (first_face o1 ++ first_face o2) as [|r0 results].
  - exists (evs0 ++ cls ++ []). split; [|now apply Hfin].
    simpl. unfold add_events. simpl. now rewrite Htr, app_nil_r, app_assoc.
  - pose proof (stabilize_trace (r0 :: results) (add_events w1 cls)) as Hst.
    destruct (stabilize (r0 :: results) (add_events w1 cls)) as [[r|e] w2];
      simpl in Hst |- *.
    + exists (evs0 ++ cls ++ []). split; [|now apply Hfin].
      now rewrite Hst, Htr, app_nil_r, app_assoc.
    + exists (evs0 ++ cls ++ [LogError ("Error in emotion analysis: " +:+ str e)]).
      split; [|now apply Hfin].
      now rewrite Hst, Htr, !app_assoc.
Qed.

(** X10.  When one of the two attempts fails and the other one answers, the
    call goes on with that one answer alone after logging exactly one
    warning, which names the attempt that failed; the averaged score of each
    label is then the raw score of that answer, or 0 where it has none. *)
Theorem lone_success_decides env img w img' w1 (r : scores) rest :
  size img <> 0%nat ->
  preprocess env img w = (Return img', w1) ->
  (attempt_fails env DefaultBackend img' ->
   DeepFace_analyze env OpenCV img' = Return (r :: rest) ->
   exists msg w2,
     classify env img w = (Return [r], w2) /\
     trace w2 = trace w1 ++
       [CallAnalyze DefaultBackend img';
        LogWarning ("First attempt failed: " +:+ msg);
        CallAnalyze OpenCV img'] /\
     analyze_body env (Some img) w = stabilize [r] w2) /\
  (DeepFace_analyze env DefaultBackend img' = Return (r :: rest) ->
   attempt_fails env OpenCV img' ->
   exists msg w2,
     classify env img w = (Return [r], w2) /\
     trace w2 = trace w1 ++
       [CallAnalyze DefaultBackend img';
        CallAnalyze OpenCV img';
        LogWarning ("Second attempt failed: " +:+ msg)] /\
     analyze_body env (Some img) w = stabilize [r] w2) /\
  (forall k, mean_score [r] k == default 0%Q (r !! k))%Q.
Proof.
  intros Hsize Hpre. unfold attempt_fails.
  assert (Hbody : forall (rs : list scores) w2,
    classify env img w = (Return rs, w2) -> rs <> [] ->
    analyze_body env (Some img) w = stabilize rs w2).
  { intros rs w2 Hc Hne. now apply analyze_body_reaches. }
  split; [|split].
  - intros Hf Hok. pose proof (classify_eq env img w) as Hc.
    rewrite Hpre, Hok in Hc.
    destruct (DeepFace_analyze env DefaultBackend img') as [[|? ?]|e];
      try contradiction; simpl in Hc.
    + exists (str IndexError). eexists. split; [exact Hc|]. split; [reflexivity|].
      apply Hbody; [exact Hc|discriminate].
    + exists (str e). eexists. split; [exact Hc|]. split; [reflexivity|].
      apply Hbody; [exact Hc|discriminate].
  - intros Hok Hf. pose proof (classify_eq env img w) as Hc.
    rewrite Hpre, Hok in Hc.
    destruct (DeepFace_analyze env OpenCV img') as [[|? ?]|e];
      try contradiction; simpl in Hc.
    + exists (str IndexError). eexists. split; [exact Hc|]. split; [reflexivity|].
      apply Hbody; [exact Hc|discriminate].
    + exists (str e). eexists. split; [exact Hc|]. split; [reflexivity|].
      apply Hbody; [exact Hc|discriminate].
  - intros k. unfold mean_score, py_sum. simpl.
    rewrite Qplus_0_l. change (inject_Z (Z.of_nat 1)) with 1%Q.
    unfold Qdiv. change (/ 1)%Q with 1%Q. apply Qmult_1_r.
Qed.

Lemma lone_success_decides_witness :
  size (grid 100 100) <> 0%nat /\
  preprocess (one_eyed mostly_neutral) (grid 100 100) fresh
    = (Return (grid 100 100), fresh) /\
  attempt_fails (one_eyed mostly_neutral) DefaultBackend (grid 100 100) /\
  DeepFace_analyze (one_eyed mostly_neutral) OpenCV (grid 100 100)
    = Return [list_to_map mostly_neutral] /\
  exists msg w2,
    classify (one_eyed mostly_neutral) (grid 100 100) fresh
      = (Return [list_to_map mostly_neutral], w2) /\
    trace w2 = trace fresh ++
      [CallAnalyze DefaultBackend (grid 100 100);
       LogWarning ("First attempt failed: " +:+ msg);
       CallAnalyze OpenCV (grid 100 100)] /\
    analyze_body (one_eyed mostly_neutral) (Some (grid 100 100)) fresh
      = stabilize [list_to_map mostly_neutral] w2.
Proof.
  assert (Hsize : size (grid 100 100) <> 0%nat) by (apply grid_not_empty; lia).
  assert (Hpre : preprocess (one_eyed mostly_neutral) (grid 100 100) fresh
                 = (Return (grid 100 100), fresh)) by reflexivity.
  split; [exact Hsize|]. split; [exact Hpre|]. split; [exact I|].
  split; [reflexivity|].
  exact (proj1 (lone_success_decides (one_eyed mostly_neutral) (grid 100 100) fresh
                  (grid 100 100) fresh (list_to_map mostly_neutral) [] Hsize Hpre)
               I eq_refl).
Defined.

(** ** The results count through their means only *)


Lemma same_scores_refl a : same_scores a a.
Proof. induction a; constructor; [split; reflexivity|assumption]. Qed.












(** ** Ties and the order of the labels *)

Lemma average_scores_init results :
  average_scores (emotions init) results
  = map (fun k => (k, mean_score results k)) (emotions init).
Proof. reflexivity. Qed.

Lemma max_from_keeps best (l : list (string * Q)) :
  (forall x, x ∈ l -> (snd x <= snd best)%Q) -> max_from by_value best l = best.
Proof.
  revert best. induction l as [|x l IH]; intros best H; simpl; [reflexivity|].
  assert (Hx : by_value best x = false) by (apply Qltb_ge, H; left).
  rewrite Hx. apply IH. intros y Hy. apply H. now right.
Qed.

Lemma last_of_split {A} (a b c : list A) (x : A) :
  NoDup (c ++ [x]) -> a ++ x :: b = c ++ [x] -> b = [] /\ a = c.
Proof.
  intros Hnd Heq. destruct b as [|y b] using rev_ind.
  - split; [reflexivity|]. now apply app_inj_tail in Heq as [? _].
  - exfalso. clear IHb.
    replace (a ++ x :: b ++ [y]) with ((a ++ x :: b) ++ [y]) in Heq
      by now rewrite <- app_assoc.
    apply app_inj_tail in Heq as [Hc ->].
    rewrite <- Hc in Hnd. apply NoDup_app in Hnd as (_ & Hnd & _).
    apply (Hnd x); [|left]. apply elem_of_app. right. left.
Qed.

Lemma label_keys_NoDup :
  NoDup (["angry"; "disgust"; "fear"; "happy"; "sad"; "surprise"] ++ ["neutral"]).
Proof.
  pose proof (average_scores_NoDup (emotions init) []) as Hnd.
  rewrite average_scores_init in Hnd. exact Hnd.
Qed.

(** X14.  When the collected results give every label a mean of zero, as
    when the classifier answers empty mappings, the dominant candidate is
    'angry', the first label of the list; on an analyzer with an empty history
    the call then returns 'angry' with a confidence equal to 0. *)
Theorem no_scores_means_angry env img w results w1 :
  emotions (self w) = emotions init ->
  (forall k, k ∈ emotions init -> mean_score results k == 0)%Q ->
  (exists v, dominant_pick (self w) results = Return ("angry", v)) /\
  (size img <> 0%nat ->
   classify env img w = (Return results, w1) ->
   results <> [] ->
   previous_emotions (self w) = [] ->
   exists conf w',
     analyze_emotion env (Some img) w = (Return ("angry", conf), w') /\
     (conf == 0)%Q).
Proof.
  intros Hem Hzero.
  assert (Hd : exists v, dominant_pick (self w) results = Return ("angry", v)).
  { unfold dominant_pick. rewrite Hem, average_scores_init.
    assert (Htail : forall k, k ∈ tail (emotions init) -> k ∈ emotions init)
      by (intros k Hk; now right).
    change (emotions init) with ("angry" :: tail (emotions init)) at 1.
    set (rest := tail (emotions init)) in *. clearbody rest.
    unfold weigh. rewrite !map_cons. eexists. simpl py_max. f_equal.
    apply max_from_keeps. intros x Hx.
    apply list_elem_of_In, in_map_iff in Hx as (item & <- & Hitem).
    apply in_map_iff in Hitem as (k' & <- & Hk'). apply list_elem_of_In in Hk'.
    simpl. rewrite (Hzero k') by auto.
    rewrite (Hzero "angry") by (simpl; repeat constructor).
    rewrite !Qmult_0_l. apply Qle_refl. }
  split; [exact Hd|].
  intros Hsize Hc Hne Hh. destruct Hd as [v Hd].
  rewrite analyze_emotion_eq, (analyze_body_picked _ _ _ _ _ _ Hsize Hc Hne Hd).
  cbv zeta. rewrite Hh, Hem. simpl fst.
  assert (Hget : dict_get (average_scores (emotions init) results) "angry"
                 = Return (mean_score results "angry"))
    by (apply average_scores_get; simpl; repeat constructor).
  assert (Hs : smooth (push_history (smooth_window (self w)) [] "angry") ("angry", v)
                 (average_scores (emotions init) results)
               = Return ("angry", (mean_score results "angry" / 100)%Q)).
  { assert (Hpush : push_history (smooth_window (self w)) [] "angry"
                    = if (smooth_window (self w) <? 1)%nat then [] else ["angry"]).
    { unfold push_history. simpl.
      destruct (smooth_window (self w) <? 1)%nat; reflexivity. }
    rewrite Hpush.
    set (avg := average_scores (emotions init) results) in *. clearbody avg.
    destruct (smooth_window (self w) <? 1)%nat; unfold smooth.
    - cbn [fst]. now rewrite Hget.
    - change (index0 (most_common1 (Counter ["angry"])))
        with (@Return (string * nat) ("angry", 1%nat)).
      cbn [fst]. now rewrite Hget. }
  rewrite Hs, subtle_check_other by discriminate.
  eexists _, _. split; [reflexivity|].
  rewrite (Hzero "angry"); [reflexivity|simpl; repeat constructor].
Qed.

Lemma no_scores_means_angry_witness :
  emotions (self fresh) = emotions init /\
  (forall k, k ∈ emotions init -> mean_score (twice []) k == 0)%Q /\
  size (grid 100 100) <> 0%nat /\
  classify (steady []) (grid 100 100) fresh = (Return (twice []), seen) /\
  exists conf w',
    analyze_emotion (steady []) (Some (grid 100 100)) fresh
      = (Return ("angry", conf), w') /\
    (conf == 0)%Q.
Proof.
  assert (Hz : (forall k, k ∈ emotions init -> mean_score (twice []) k == 0)%Q)
    by (intros k _; reflexivity).
  assert (Hsize : size (grid 100 100) <> 0%nat) by (apply grid_not_empty; lia).
  assert (Hc : classify (steady []) (grid 100 100) fresh = (Return (twice []), seen))
    by (vm_compute; reflexivity).
  assert (Hne : twice [] <> []) by discriminate.
  split; [reflexivity|]. split; [exact Hz|]. split; [exact Hsize|]. split; [exact Hc|].
  exact (proj2 (no_scores_means_angry (steady []) (grid 100 100) fresh (twice []) seen
                  eq_refl Hz) Hsize Hc Hne eq_refl).
Defined.

(** * The pipeline on binary64 floats *)

(** ** The order of the floats that are not NaN *)

Lemma SFltb_asym a b : SFltb a b = true -> SFltb b a = false.
Proof.
  unfold SFltb, SFcompare.
  destruct a as [sa|sa| |sa ma ea], b as [sb|sb| |sb mb eb];
    try destruct sa; try destruct sb; simpl; try congruence;
    rewrite ?(Z.compare_antisym eb ea);
    destruct (Z.compare eb ea); simpl; try congruence;
    change (Pcompare ma mb Eq) with (Pos.compare ma mb);
    change (Pcompare mb ma Eq) with (Pos.compare mb ma);
    rewrite (Pos.compare_antisym mb ma);
    destruct (Pos.compare mb ma); simpl; congruence.
Qed.

Ltac compare_cases :=
  repeat match goal with
  | |- context [Z.compare ?x ?y] => destruct (Z.compare_spec x y)
  | |- context [Pcompare ?x ?y Eq] =>
      change (Pcompare x y Eq) with (Pos.compare x y)
  | |- context [Pos.compare ?x ?y] => destruct (Pos.compare_spec x y)
  end.

Lemma SFltb_negtrans a b c :
  b <> S754_nan -> SFltb a b = false -> SFltb b c = false -> SFltb a c = false.
Proof.
  unfold SFltb, SFcompare. intros Hb.
  destruct a as [sa|sa| |sa ma ea], b as [sb|sb| |sb mb eb], c as [sc|sc| |sc mc ec];
    try congruence;
    try destruct sa; try destruct sb; try destruct sc; simpl; try congruence;
    compare_cases; simpl; try congruence; try lia.
Qed.

Lemma not_nan_Prim2SF x : PrimFloat.is_nan x = false -> Prim2SF x <> S754_nan.
Proof.
  unfold PrimFloat.is_nan. rewrite FloatAxioms.eqb_spec. intros H Hn. rewrite Hn in H. discriminate.
Qed.

Lemma float_ltb_asym x y : PrimFloat.ltb x y = true -> PrimFloat.ltb y x = false.
Proof. rewrite !FloatAxioms.ltb_spec. apply SFltb_asym. Qed.

Lemma float_ltb_negtrans x y z :
  PrimFloat.is_nan y = false ->
  PrimFloat.ltb x y = false -> PrimFloat.ltb y z = false -> PrimFloat.ltb x z = false.
Proof.
  rewrite !FloatAxioms.ltb_spec. intros Hy. apply SFltb_negtrans. now apply not_nan_Prim2SF.
Qed.

(** ** The first maximum, for an order that holds on part of the items *)

Section FirstMaxOn.
Context {A : Type} (lt : A -> A -> bool) (P : A -> Prop).
Hypothesis lt_asym : forall a b, lt a b = true -> lt b a = false.
Hypothesis lt_negtrans :
  forall a b c, P b -> lt a b = false -> lt b c = false -> lt a c = false.

Lemma max_from_split_on (best : A) (l : list A) :
  P best -> (forall x, x ∈ l -> P x) ->
  exists l1 l2,
    best :: l = l1 ++ max_from lt best l :: l2 /\
    (forall x, x ∈ l1 -> lt x (max_from lt best l) = true) /\
    (forall x, x ∈ l2 -> lt (max_from lt best l) x = false).
Proof.
  revert best. induction l as [|x l IH]; intros best Hbest Hl; simpl.
  - exists [], []. split; [reflexivity|]. split; intros y Hy; inversion Hy.
  - assert (Hx : P x) by (apply Hl; left).
    assert (Hl' : forall y, y ∈ l -> P y) by (intros y Hy; apply Hl; now right).
    destruct (lt best x) eqn:Hbx.
    + destruct (IH x Hx Hl') as (l1 & l2 & Heq & Hlt & Hge).
      assert (Hm : P (max_from lt x l)).
      { assert (Hin : max_from lt x l ∈ x :: l)
          by (rewrite Heq; apply elem_of_app; right; left).
        apply elem_of_cons in Hin as [->|Hin]; auto. }
      exists (best :: l1), l2. split; [simpl; now rewrite <- Heq|].
      split; [|exact Hge].
      intros y Hy. apply elem_of_cons in Hy as [->|Hy]; [|now apply Hlt].
      destruct l1 as [|x' l1].
      * simpl in Heq. injection Heq as Hx' _. now rewrite <- Hx'.
      * simpl in Heq. injection Heq as Hx' _. subst x'.
        assert (Hxm : lt x (max_from lt x l) = true) by (apply Hlt; left).
        destruct (lt best (max_from lt x l)) eqn:Hbm; [reflexivity|].
        apply lt_asym in Hxm.
        rewrite (lt_negtrans _ _ _ Hm Hbm Hxm) in Hbx. discriminate.
    + destruct (IH best Hbest Hl') as (l1 & l2 & Heq & Hlt & Hge).
      destruct l1 as [|b l1]; simpl in Heq.
      * injection Heq as Hb Hl2. exists [], (x :: l2).
        split; [simpl; now rewrite <- Hb, <- Hl2|].
        split; [intros y Hy; inversion Hy|].
        intros y Hy. apply elem_of_cons in Hy as [->|Hy]; [|now apply Hge].
        now rewrite <- Hb.
      * injection Heq as Hb Hl2. subst b. exists (best :: x :: l1), l2.
        split; [simpl; now rewrite <- Hl2|]. split; [|exact Hge].
        intros y Hy. apply elem_of_cons in Hy as [->|Hy]; [apply Hlt; left|].
        apply elem_of_cons in Hy as [->|Hy]; [|apply Hlt; now right].
        assert (Hbm : lt best (max_from lt best l) = true) by (apply Hlt; left).
        destruct (lt x (max_from lt best l)) eqn:Hxm; [reflexivity|].
        rewrite (lt_negtrans _ _ _ Hx Hbx Hxm) in Hbm. discriminate.
Qed.

Lemma py_max_split_on (l : list A) (m : A) :
  (forall x, x ∈ l -> P x) ->
  py_max lt l = Return m ->
  exists l1 l2,
    l = l1 ++ m :: l2 /\
    (forall x, x ∈ l1 -> lt x m = true) /\
    (forall x, x ∈ l2 -> lt m x = false).
Proof.
  destruct l as [|x l]; simpl; [discriminate|].
  intros Hl [= <-]. apply max_from_split_on.
  - apply Hl. left.
  - intros y Hy. apply Hl. now right.
Qed.
End FirstMaxOn.

Section Binary64.
Import Float64.

(** ** Rounding keeps the sign *)

Section Rounding.
Variables prec emax : Z.

Lemma shr_1_nonneg mrs : (0 <= shr_m mrs)%Z -> (0 <= shr_m (shr_1 mrs))%Z.
Proof.
  destruct mrs as [m r s]. simpl. destruct m as [|[p|p|]|p]; simpl; lia.
Qed.

Lemma iter_shr_1_nonneg p mrs :
  (0 <= shr_m mrs)%Z -> (0 <= shr_m (SpecFloat.iter_pos shr_1 p mrs))%Z.
Proof.
  revert mrs. induction p as [p IH|p IH|]; intros mrs H; simpl.
  - apply IH, IH, shr_1_nonneg, H.
  - apply IH, IH, H.
  - apply shr_1_nonneg, H.
Qed.

Lemma shr_fexp_nonneg m e l :
  (0 <= m)%Z -> (0 <= shr_m (fst (shr_fexp prec emax m e l)))%Z.
Proof.
  intros H. unfold shr_fexp, shr.
  assert (H0 : (0 <= shr_m (shr_record_of_loc m l))%Z)
    by (destruct l as [|[| |]]; exact H).
  destruct (_ - e)%Z; simpl; [exact H0| |exact H0].
  apply iter_shr_1_nonneg, H0.
Qed.

Lemma round_nearest_even_nonneg m l :
  (0 <= m)%Z -> (0 <= round_nearest_even m l)%Z.
Proof.
  intros H. unfold round_nearest_even.
  destruct l as [|[| |]]; try destruct (Z.even m); lia.
Qed.

Lemma binary_round_aux_nonneg mx ex lx :
  (0 <= mx)%Z -> SFnonneg (binary_round_aux prec emax false mx ex lx).
Proof.
  intros H. unfold binary_round_aux.
  pose proof (shr_fexp_nonneg mx ex lx H) as H1.
  destruct (shr_fexp prec emax mx ex lx) as [mrs' e']. simpl in H1.
  pose proof (shr_fexp_nonneg
                (round_nearest_even (shr_m mrs') (loc_of_shr_record mrs')) e' loc_Exact
                (round_nearest_even_nonneg _ _ H1)) as H2.
  destruct (shr_fexp prec emax _ e' loc_Exact) as [mrs'' e'']. simpl in H2.
  destruct (shr_m mrs''); [exact I| |lia].
  destruct (e'' <=? emax - prec)%Z; exact I.
Qed.

Lemma binary_round_nonneg m e : SFnonneg (binary_round prec emax false m e).
Proof.
  unfold binary_round. destruct (shl_align _ _ _) as [mz ez].
  now apply binary_round_aux_nonneg.
Qed.

Lemma SFadd_nonneg x y : SFnonneg x -> SFnonneg y -> SFnonneg (SFadd prec emax x y).
Proof.
  destruct x as [[|]|[|]| |[|] mx ex], y as [[|]|[|]| |[|] my ey]; simpl;
    try tauto.
  intros _ _. apply binary_round_nonneg.
Qed.

Lemma SFmul_nonneg x y m e :
  SFnonneg x -> y = S754_finite false m e -> SFnonneg (SFmul prec emax x y).
Proof.
  intros Hx ->. destruct x as [[|]|[|]| |[|] mx ex]; simpl in *; try tauto.
  now apply binary_round_aux_nonneg.
Qed.

Lemma SFdiv_nonneg x y m e :
  SFnonneg x -> y = S754_finite false m e -> SFnonneg (SFdiv prec emax x y).
Proof.
  intros Hx ->. destruct x as [[|]|[|]| |[|] mx ex]; simpl in *; try tauto.
  unfold SFdiv_core_binary.
  set (s := (ex - e - _)%Z).
  set (m' := match s with Z0 => Z.pos mx | Z.pos _ => Z.shiftl (Z.pos mx) s | Z.neg _ => 0%Z end).
  assert (Hm' : (0 <= m')%Z).
  { unfold m'. destruct s; [lia| |lia]. apply Z.shiftl_nonneg. lia. }
  pose proof (Z.div_pos m' (Z.pos m) Hm' ltac:(lia)) as Hq.
  unfold Z.div in Hq. destruct (Z.div_eucl m' (Z.pos m)) as [q r]. simpl in Hq.
  now apply binary_round_aux_nonneg.
Qed.
End Rounding.

Lemma SFcompare_refl f : f <> S754_nan -> SFcompare f f = Some Eq.
Proof.
  destruct f as [s|s| |s m e]; try congruence; intros _; simpl.
  - reflexivity.
  - now destruct s.
  - rewrite Z.compare_refl.
    change (Pcompare m m Eq) with (Pos.compare m m). rewrite Pos.compare_refl.
    now destruct s.
Qed.

Lemma float_nonneg_not_nan x : nonneg x -> PrimFloat.is_nan x = false.
Proof.
  unfold nonneg, PrimFloat.is_nan. rewrite FloatAxioms.eqb_spec. unfold SFeqb.
  intros H. rewrite SFcompare_refl; [reflexivity|].
  intros Hn. now rewrite Hn in H.
Qed.

Lemma float_leb_zero_nonneg x : PrimFloat.leb 0%float x = true -> nonneg x.
Proof.
  unfold nonneg. rewrite FloatAxioms.leb_spec.
  change (Prim2SF 0%float) with (S754_zero false).
  destruct (Prim2SF x) as [s|[|]| |[|] m e]; simpl; try discriminate; auto.
Qed.

Lemma float_ltb_zero_infinity_finite x :
  PrimFloat.ltb 0%float x = true -> PrimFloat.ltb x infinity = true ->
  positive_finite x.
Proof.
  unfold positive_finite. rewrite !FloatAxioms.ltb_spec.
  change (Prim2SF 0%float) with (S754_zero false).
  change (Prim2SF infinity) with (S754_infinity false).
  destruct (Prim2SF x) as [s|[|]| |[|] m e]; simpl; try discriminate; eauto.
Qed.

Lemma float_add_nonneg x y : nonneg x -> nonneg y -> nonneg (PrimFloat.add x y).
Proof. unfold nonneg. rewrite FloatAxioms.add_spec. apply SFadd_nonneg. Qed.

Lemma float_mul_nonneg x y : nonneg x -> positive_finite y -> nonneg (PrimFloat.mul x y).
Proof.
  unfold nonneg. intros Hx (m & e & Hy). rewrite FloatAxioms.mul_spec.
  now apply (SFmul_nonneg _ _ _ _ m e).
Qed.

Lemma float_div_nonneg x y : nonneg x -> positive_finite y -> nonneg (PrimFloat.div x y).
Proof.
  unfold nonneg. intros Hx (m & e & Hy). rewrite FloatAxioms.div_spec.
  now apply (SFdiv_nonneg _ _ _ _ m e).
Qed.

Lemma no_nan_check (d : list (string * float)) :
  forallb (fun item => negb (PrimFloat.is_nan (snd item))) d = true -> no_nan d.
Proof.
  intros H item Hin. rewrite forallb_forall in H.
  apply list_elem_of_In, H in Hin. now destruct (PrimFloat.is_nan (snd item)).
Qed.

(** The first maximum of score items none of which is a NaN. *)
Lemma float_max_split (l : list (string * float)) m :
  no_nan l -> py_max by_value l = Return m ->
  exists l1 l2,
    l = l1 ++ m :: l2 /\
    (forall x, x ∈ l1 -> PrimFloat.ltb (snd x) (snd m) = true) /\
    (forall x, x ∈ l2 -> PrimFloat.ltb (snd m) (snd x) = false).
Proof.
  intros Hl Hm.
  apply (py_max_split_on by_value
           (fun item : string * float => PrimFloat.is_nan (snd item) = false)); auto.
  - intros a b. apply float_ltb_asym.
  - intros a b c. apply float_ltb_negtrans.
Qed.

Lemma float_max_upper (l : list (string * float)) m x :
  no_nan l -> py_max by_value l = Return m -> x ∈ l ->
  PrimFloat.ltb (snd m) (snd x) = false.
Proof.
  intros Hl Hm Hx. destruct (float_max_split l m Hl Hm) as (l1 & l2 & -> & Hlt & Hge).
  apply elem_of_app in Hx as [Hx|Hx].
  - apply float_ltb_asym. now apply Hlt.
  - apply elem_of_cons in Hx as [->|Hx]; [|now apply Hge].
    destruct (PrimFloat.ltb (snd m) (snd m)) eqn:H; [|reflexivity].
    pose proof (float_ltb_asym _ _ H). congruence.
Qed.

(** ** The monad and the pipeline *)

Lemma float_keeps_ret {A} (a : A) : keeps_self (ret a).
Proof. intros w. reflexivity. Qed.

Lemma float_keeps_lift {A} (o : outcome A) : keeps_self (lift o).
Proof. intros w. reflexivity. Qed.

Lemma float_keeps_emit ev : keeps_self (emit ev).
Proof. intros w. reflexivity. Qed.

Lemma float_keeps_bind {A B} (m : M A) (k : A -> M B) :
  keeps_self m -> (forall a, keeps_self (k a)) -> keeps_self (bind m k).
Proof.
  intros Hm Hk w. unfold bind. specialize (Hm w).
  destruct (m w) as [[a|e] w1]; simpl in *; [|exact Hm].
  now rewrite Hk.
Qed.

Lemma float_keeps_try {A} (m : M A) (h : exn -> M A) :
  keeps_self m -> (forall e, keeps_self (h e)) -> keeps_self (try_except m h).
Proof.
  intros Hm Hh w. unfold try_except. specialize (Hm w).
  destruct (m w) as [[a|e] w1]; simpl in *; [exact Hm|].
  now rewrite Hh.
Qed.

Lemma float_keeps_attempt env detector label img results :
  keeps_self (attempt env detector label img results).
Proof.
  unfold attempt, call_analyze.
  apply float_keeps_try; [|intro; apply float_keeps_bind;
                            [apply float_keeps_emit|intro; apply float_keeps_ret]].
  apply float_keeps_bind;
    [apply float_keeps_bind; [apply float_keeps_emit|intro; apply float_keeps_lift]|].
  intro. apply float_keeps_bind; [apply float_keeps_lift|intro; apply float_keeps_ret].
Qed.

Lemma float_keeps_preprocess env img : keeps_self (preprocess env img).
Proof.
  unfold preprocess, ensure_min_size, call_resize.
  apply float_keeps_bind; [|intro; apply float_keeps_lift].
  apply float_keeps_bind; [apply float_keeps_lift|intro h].
  apply float_keeps_bind.
  - destruct (h <? min_size)%nat; [apply float_keeps_ret|].
    apply float_keeps_bind; [apply float_keeps_lift|intro; apply float_keeps_ret].
  - intros [|]; [|apply float_keeps_ret].
    apply float_keeps_bind; [apply float_keeps_emit|intro; apply float_keeps_lift].
Qed.

Lemma float_keeps_classify env img : keeps_self (classify env img).
Proof.
  unfold classify.
  apply float_keeps_bind; [apply float_keeps_preprocess|intro].
  apply float_keeps_bind; [apply float_keeps_attempt|intro].
  apply float_keeps_attempt.
Qed.

Lemma float_stabilize_eq results w :
  stabilize results w =
  match dominant_pick (self w) results with
  | Raise e => (Raise e, w)
  | Return d =>
      let avg := average_scores (emotions (self w)) results in
      let hist :=
        push_history (smooth_window (self w)) (previous_emotions (self w)) (fst d) in
      let w' := {| self := with_previous_emotions (self w) hist; trace := trace w |} in
      match smooth hist d avg with
      | Raise e => (Raise e, w')
      | Return s => (subtle_check avg s, w')
      end
  end.
Proof.
  unfold stabilize, dominant_pick, bind, get_self, lift, set_previous_emotions.
  simpl. destruct (py_max by_value _) as [d|e]; [|reflexivity]. simpl.
  destruct (smooth _ d _); reflexivity.
Qed.

Lemma float_analyze_emotion_eq env face_img w :
  analyze_emotion env face_img w =
  match analyze_body env face_img w with
  | (Return r, w') => (Return r, w')
  | (Raise e, w') =>
      (Return ("neutral", 0.1%float),
       {| self := self w';
          trace := trace w' ++ [LogError ("Error in emotion analysis: " +:+ str e)] |})
  end.
Proof.
  unfold analyze_emotion, try_except.
  destruct (analyze_body env face_img w) as [[r|e] w']; reflexivity.
Qed.

(** A call that collects results and picks a candidate: what is left to do. *)
Lemma float_analyze_body_picked env img w results w1 d :
  size img <> 0%nat ->
  classify env img w = (Return results, w1) ->
  results <> [] ->
  dominant_pick (self w) results = Return d ->
  analyze_body env (Some img) w =
    let avg := average_scores (emotions (self w)) results in
    let hist :=
      push_history (smooth_window (self w)) (previous_emotions (self w)) (fst d) in
    let w' := {| self := with_previous_emotions (self w) hist; trace := trace w1 |} in
    match smooth hist d avg with
    | Raise e => (Raise e, w')
    | Return s => (subtle_check avg s, w')
    end.
Proof.
  intros Hsize Hc Hne Hd.
  pose proof (float_keeps_classify env img w) as Hself. rewrite Hc in Hself.
  simpl in Hself. unfold analyze_body, bind.
  destruct (decide (size img = 0%nat)); [contradiction|].
  rewrite Hc. destruct results as [|r results]; [contradiction|].
  rewrite float_stabilize_eq, Hself, Hd. reflexivity.
Qed.

(** ** Averaged and weighted scores *)

Lemma float_fold_average_elem results em acc k v :
  (k, v) ∈ fold_left (average_step results) em acc ->
  (k, v) ∈ acc \/ (k ∈ em /\ v = mean_score results k).
Proof.
  revert acc. induction em as [|e em IH]; intros acc; simpl; [now left|].
  intros H. destruct (IH _ H) as [Hacc|[Hin ->]].
  - apply dict_set_elem in Hacc as [[-> ->]|Hacc];
      [right; split; [left|reflexivity]|now left].
  - right. split; [now right|reflexivity].
Qed.

Lemma float_average_scores_elem em results k v :
  (k, v) ∈ average_scores em results -> k ∈ em /\ v = mean_score results k.
Proof.
  intros H. apply float_fold_average_elem in H as [H|H]; [inversion H|exact H].
Qed.

Lemma float_weigh_elem weights avg x :
  x ∈ weigh weights avg ->
  exists v, (fst x, v) ∈ avg /\
            snd x = PrimFloat.mul v (default 1.0%float (weights !! fst x)).
Proof.
  unfold weigh. intros H. apply list_elem_of_In, in_map_iff in H as ([k v] & <- & Hin).
  apply list_elem_of_In in Hin. now exists v.
Qed.

Lemma float_smooth_elem hist d avg s :
  smooth hist d avg = Return s ->
  exists v, (fst s, v) ∈ avg /\ snd s = PrimFloat.div v 100%float.
Proof.
  unfold smooth. destruct hist as [|x hist].
  - destruct (dict_get avg (fst d)) as [v|e] eqn:Hg; [|discriminate].
    intros [= <-]. exists v. split; [now apply dict_get_elem|reflexivity].
  - destruct (index0 _) as [top|e]; [|discriminate].
    destruct (dict_get avg (fst top)) as [v|e] eqn:Hg; [|discriminate].
    intros [= <-]. exists v. split; [now apply dict_get_elem|reflexivity].
Qed.

(** The two ways out of the check for subtle emotions. *)
Lemma float_subtle_check_cases avg s :
  (subtle_check avg s = Return s /\
   (fst s = "neutral" -> PrimFloat.ltb (snd s) 0.6%float = true ->
    forall next,
      py_max by_value (filter (fun item : string * float => fst item <> "neutral") avg)
        = Return next ->
      PrimFloat.ltb 20%float (snd next) = false)) \/
  (exists next,
     subtle_check avg s = Return (fst next, PrimFloat.div (snd next) 100%float) /\
     fst s = "neutral" /\ PrimFloat.ltb (snd s) 0.6%float = true /\
     py_max by_value (filter (fun item : string * float => fst item <> "neutral") avg)
       = Return next /\
     PrimFloat.ltb 20%float (snd next) = true).
Proof.
  unfold subtle_check.
  destruct (decide (fst s = "neutral")) as [Hs|Hs]; [|left; split; [reflexivity|congruence]].
  destruct (PrimFloat.ltb (snd s) 0.6%float) eqn:Hc;
    [|left; split; [reflexivity|discriminate]].
  remember (filter (fun item : string * float => fst item <> "neutral") avg) as others
    eqn:Ho. clear Ho.
  destruct others as [|o others'].
  { left. split; [reflexivity|]. intros _ _ next Hn. discriminate. }
  remember (o :: others') as other eqn:Ho.
  destruct (py_max by_value other) as [next|e] eqn:Hm;
    [|rewrite Ho in Hm; discriminate Hm].
  destruct (PrimFloat.ltb 20%float (snd next)) eqn:H20.
  - right. exists next. auto.
  - left. split; [reflexivity|]. intros _ _ next' [= <-]. exact H20.
Qed.

(** ** Scores that are numbers *)

Lemma float_zero_nonneg : nonneg 0%float.
Proof. exact I. Qed.

Lemma float_one_positive : positive_finite 1.0%float.
Proof. eexists _, _. vm_compute. reflexivity. Qed.

Lemma float_len_positive n : (0 < n <= 2)%nat -> positive_finite (py_float n).
Proof.
  intros H. destruct n as [|[|[|n]]]; try lia; eexists _, _; vm_compute; reflexivity.
Qed.

Lemma float_raw_nonneg results (r : scores) k :
  nonneg_scores results -> r ∈ results -> nonneg (default 0%float (r !! k)).
Proof.
  intros H Hr. destruct (r !! k) as [v|] eqn:Hv; simpl.
  - apply float_leb_zero_nonneg, (H r k v Hr Hv).
  - exact float_zero_nonneg.
Qed.

Lemma float_sum_nonneg values acc :
  nonneg acc -> (forall v, v ∈ values -> nonneg v) ->
  nonneg (fold_left PrimFloat.add values acc).
Proof.
  revert acc. induction values as [|v values IH]; intros acc Hacc Hv; simpl; [exact Hacc|].
  apply IH.
  - apply float_add_nonneg; [exact Hacc|apply Hv; left].
  - intros x Hx. apply Hv. now right.
Qed.

(** The mean of one or two scores that are not negative is not negative. *)
Lemma float_mean_nonneg results k :
  (0 < length results <= 2)%nat -> nonneg_scores results ->
  nonneg (mean_score results k).
Proof.
  intros Hlen H. unfold mean_score, py_sum. apply float_div_nonneg.
  - apply float_sum_nonneg; [exact float_zero_nonneg|].
    intros v Hv. apply list_elem_of_fmap in Hv as (r & -> & Hr).
    now apply (float_raw_nonneg results).
  - apply float_len_positive. now rewrite length_map.
Qed.

Lemma float_weight_positive weights k :
  positive_weights weights -> positive_finite (default 1.0%float (weights !! k)).
Proof.
  intros H. destruct (weights !! k) as [v|] eqn:Hv; simpl.
  - destruct (H k v Hv). now apply float_ltb_zero_infinity_finite.
  - exact float_one_positive.
Qed.

Lemma float_average_no_nan em results :
  (0 < length results <= 2)%nat -> nonneg_scores results ->
  no_nan (average_scores em results).
Proof.
  intros Hlen H [k v] Hin. apply float_average_scores_elem in Hin as [_ ->].
  now apply float_nonneg_not_nan, float_mean_nonneg.
Qed.

Lemma float_weighted_no_nan weights em results :
  (0 < length results <= 2)%nat -> nonneg_scores results -> positive_weights weights ->
  no_nan (weigh weights (average_scores em results)).
Proof.
  intros Hlen H Hw x Hin. apply float_weigh_elem in Hin as (v & Hv & ->).
  apply float_average_scores_elem in Hv as [_ ->].
  apply float_nonneg_not_nan, float_mul_nonneg.
  - now apply float_mean_nonneg.
  - now apply float_weight_positive.
Qed.

Lemma float_init_weights : positive_weights (emotion_weights init).
Proof.
  intros k v H. unfold init in H. simpl in H.
  repeat (apply lookup_insert_Some in H as [[_ <-]|[_ H]];
          [split; vm_compute; reflexivity|]).
  now rewrite lookup_empty in H.
Qed.

(** One attempt adds at most one result and never raises. *)
Lemma float_attempt_length env detector label img results w :
  match attempt env detector label img results w with
  | (Return rs, _) => (length rs <= S (length results))%nat
  | (Raise _, _) => False
  end.
Proof.
  unfold attempt, try_except, bind, call_analyze, emit, lift, ret. simpl.
  destruct (DeepFace_analyze env detector img) as [[|r rs]|e]; simpl;
    rewrite ?length_app; simpl; lia.
Qed.

(** A call collects at most two results. *)
Lemma float_classify_length env img w results w1 :
  classify env img w = (Return results, w1) -> (length results <= 2)%nat.
Proof.
  unfold classify, bind. destruct (preprocess env img w) as [[img'|e] w0]; [|discriminate].
  pose proof (float_attempt_length env DefaultBackend "First" img' [] w0) as H1.
  destruct (attempt env DefaultBackend "First" img' [] w0) as [[rs1|e] w2];
    [|contradiction].
  pose proof (float_attempt_length env OpenCV "Second" img' rs1 w2) as H2.
  destruct (attempt env OpenCV "Second" img' rs1 w2) as [[rs2|e] w3]; [|contradiction].
  intros [= <- _]. simpl in H1. lia.
Qed.

Lemma float_collected_length env img w results w1 :
  classify env img w = (Return results, w1) -> results <> [] ->
  (0 < length results <= 2)%nat.
Proof.
  intros Hc Hne. split; [|exact (float_classify_length _ _ _ _ _ Hc)].
  destruct results; [contradiction|simpl; lia].
Qed.

(** ** Smoothing *)

Lemma float_smooth_label hist d avg s :
  hist <> [] -> smooth hist d avg = Return s ->
  exists n, index0 (most_common1 (Counter hist)) = Return (fst s, n).
Proof.
  unfold smooth. destruct hist as [|x hist]; [congruence|]. intros _.
  destruct (index0 _) as [[t n]|e]; [|discriminate].
  destruct (dict_get avg _) as [v|e]; [|discriminate].
  intros [= <-]. now exists n.
Qed.

Lemma float_subtle_check_other avg s :
  fst s <> "neutral" -> subtle_check avg s = Return s.
Proof.
  intros H. unfold subtle_check. destruct (decide (fst s = "neutral")); [contradiction|].
  reflexivity.
Qed.

Lemma float_fold_average_keys results em acc k :
  k ∈ (fold_left (average_step results) em acc).*1 <-> k ∈ acc.*1 \/ k ∈ em.
Proof.
  revert acc. induction em as [|e em IH]; intros acc; simpl.
  - split; [now left|]. intros [H|H]; [exact H|inversion H].
  - rewrite IH. unfold average_step. rewrite dict_set_keys.
    destruct (decide (e ∈ acc.*1)) as [He|He].
    + rewrite elem_of_cons. split; [intros [?|?]; auto|].
      intros [?|[->|?]]; auto.
    + rewrite elem_of_app, list_elem_of_singleton, elem_of_cons. tauto.
Qed.

Lemma float_average_scores_get em results k :
  k ∈ em -> dict_get (average_scores em results) k = Return (mean_score results k).
Proof.
  intros Hk. destruct (dict_get_key (average_scores em results) k) as [v Hv].
  - unfold average_scores. apply float_fold_average_keys. now right.
  - rewrite Hv. apply dict_get_elem, float_average_scores_elem in Hv as [_ ->].
    reflexivity.
Qed.

(** C4.  On binary64 floats, as the program computes.  The smoothed label is
    the most frequent label of the history, and among several most frequent
    ones the one met first: every label standing before its first occurrence
    occurs strictly less often, every label after it at most as often.  A
    history of one or two labels is therefore smoothed to its oldest label.
    The call smooths the history it has just updated: after the dominant pick
    it pushes the candidate, goes on with [smooth] of the pushed history and
    hands the smoothed pair to the check for subtle emotions, so that a
    smoothed label other than neutral is the label the call returns.  In
    particular, from a history [A; A] with window 2, a call with any candidate
    leaves A followed by the candidate and smooths it to A, and returns A with
    its averaged score over 100 when A is a known label other than neutral:
    after two frames of angry, a frame whose candidate is sad returns
    angry. *)
Theorem smoothed_label_most_frequent :
  (forall hist d avg s c,
     hist <> [] ->
     smooth hist d avg = Return (s, c) ->
     exists p q,
       hist = p ++ s :: q /\
       (s ∉ p) /\
       (forall y, y ∈ p -> (occurrences hist y < occurrences hist s)%nat) /\
       (forall y, y ∈ q -> (occurrences hist y <= occurrences hist s)%nat)) /\
  (forall hist d avg s c,
     (0 < length hist <= 2)%nat ->
     smooth hist d avg = Return (s, c) ->
     head hist = Some s) /\
  (forall env img w results w1 d,
     size img <> 0%nat ->
     classify env img w = (Return results, w1) ->
     results <> [] ->
     dominant_pick (self w) results = Return d ->
     let avg := average_scores (emotions (self w)) results in
     let hist :=
       push_history (smooth_window (self w)) (previous_emotions (self w)) (fst d) in
     let w' := {| self := with_previous_emotions (self w) hist; trace := trace w1 |} in
     analyze_body env (Some img) w =
       match smooth hist d avg with
       | Raise e => (Raise e, w')
       | Return s => (subtle_check avg s, w')
       end /\
     previous_emotions (self (snd (analyze_emotion env (Some img) w))) = hist /\
     (forall s,
        smooth hist d avg = Return s ->
        (hist <> [] ->
         exists p q,
           hist = p ++ fst s :: q /\
           (fst s ∉ p) /\
           (forall y, y ∈ p -> (occurrences hist y < occurrences hist (fst s))%nat) /\
           (forall y, y ∈ q -> (occurrences hist y <= occurrences hist (fst s))%nat)) /\
        (fst s <> "neutral" ->
         analyze_emotion env (Some img) w = (Return s, w')))) /\
  (forall env img w results w1 d A,
     size img <> 0%nat ->
     classify env img w = (Return results, w1) ->
     results <> [] ->
     dominant_pick (self w) results = Return d ->
     smooth_window (self w) = 2%nat ->
     previous_emotions (self w) = [A; A] ->
     let avg := average_scores (emotions (self w)) results in
     let conf := PrimFloat.div (mean_score results A) 100%float in
     let w' := {| self := with_previous_emotions (self w) [A; fst d];
                  trace := trace w1 |} in
     previous_emotions (self (snd (analyze_emotion env (Some img) w))) = [A; fst d] /\
     (exists n, index0 (most_common1 (Counter [A; fst d])) = Return (A, n)) /\
     (forall s, smooth [A; fst d] d avg = Return s -> fst s = A) /\
     (A ∈ emotions (self w) ->
      smooth [A; fst d] d avg = Return (A, conf) /\
      analyze_body env (Some img) w = (subtle_check avg (A, conf), w') /\
      (A <> "neutral" ->
       analyze_emotion env (Some img) w = (Return (A, conf), w')))) /\
  analyze_emotion (steady sad_happy_tie) (Some (grid 100 100))
    {| self := with_previous_emotions init ["angry"; "angry"]; trace := [] |}
  = (Return ("angry", 0%float),
     {| self := with_previous_emotions init ["angry"; "sad"]; trace := trace seen |}).
Proof.
  assert (Hfirst : forall hist d avg s c,
     hist <> [] ->
     smooth hist d avg = Return (s, c) ->
     exists p q,
       hist = p ++ s :: q /\
       (s ∉ p) /\
       (forall y, y ∈ p -> (occurrences hist y < occurrences hist s)%nat) /\
       (forall y, y ∈ q -> (occurrences hist y <= occurrences hist s)%nat)).
  { intros hist d avg s c Hne Hs.
    destruct (float_smooth_label _ _ _ _ Hne Hs) as [n Hn]. simpl in Hn.
    destruct (most_common_first hist Hne) as (s' & p & q & Htop & Hrest).
    rewrite Htop in Hn. injection Hn as -> _. eauto. }
  assert (Htop : forall A C : string,
     exists n, index0 (most_common1 (Counter [A; C])) = Return (A, n)).
  { intros A C. unfold Counter, count_one, dict_get_default. simpl.
    destruct (decide (A = C)) as [->|Hne]; simpl; eauto. }
  split; [exact Hfirst|]. split; [|split; [|split]].
  - intros hist d avg s c Hlen Hs.
    apply float_smooth_label in Hs as [n Hn];
      [|destruct hist; simpl in Hlen; [lia|discriminate]].
    destruct hist as [|x [|y [|z hist]]]; simpl in Hlen; try lia.
    + simpl in Hn. now injection Hn as -> _.
    + destruct (Htop x y) as [m Hm]. rewrite Hm in Hn. now injection Hn as -> _.
  - intros env img w results w1 d Hsize Hc Hne Hd avg hist w'.
    pose proof (float_analyze_body_picked _ _ _ _ _ _ Hsize Hc Hne Hd) as Hbody.
    cbv zeta in Hbody. fold avg hist w' in Hbody.
    split; [exact Hbody|]. split.
    + rewrite float_analyze_emotion_eq, Hbody.
      destruct (smooth hist d avg) as [s|e]; [|reflexivity].
      now destruct (subtle_check avg s).
    + intros [s c] Hs. split.
      * intros Hhist. exact (Hfirst hist d avg s c Hhist Hs).
      * intros Hn. rewrite float_analyze_emotion_eq, Hbody, Hs, float_subtle_check_other;
          [reflexivity|exact Hn].
  - intros env img w results w1 d A Hsize Hc Hne Hd Hw Hh avg conf w'.
    assert (Hpush : push_history (smooth_window (self w)) (previous_emotions (self w))
                      (fst d) = [A; fst d]) by (rewrite Hw, Hh; reflexivity).
    pose proof (float_analyze_body_picked _ _ _ _ _ _ Hsize Hc Hne Hd) as Hbody.
    cbv zeta in Hbody. rewrite Hpush in Hbody. fold avg w' in Hbody.
    split; [|split; [apply Htop|split]].
    + rewrite float_analyze_emotion_eq, Hbody.
      destruct (smooth [A; fst d] d avg) as [s|e]; [|reflexivity].
      now destruct (subtle_check avg s).
    + intros s Hs. destruct (Htop A (fst d)) as [n Hn].
      apply float_smooth_label in Hs as [m Hm]; [|discriminate].
      rewrite Hn in Hm. now injection Hm as -> _.
    + intros HA.
      assert (Hs : smooth [A; fst d] d avg = Return (A, conf)).
      { destruct (Htop A (fst d)) as [n Hn]. unfold smooth. rewrite Hn. simpl.
        unfold avg. now rewrite (float_average_scores_get _ _ _ HA). }
      rewrite Hs in Hbody.
      split; [exact Hs|]. split; [exact Hbody|].
      intros Hn. rewrite float_analyze_emotion_eq, Hbody, float_subtle_check_other;
        [reflexivity|exact Hn].
  - vm_compute. reflexivity.
Qed.

Lemma smoothed_label_most_frequent_witness :
  ["happy"; "sad"] <> [] /\
  smooth ["happy"; "sad"] ("sad", 30%float) [("happy", 10%float); ("sad", 25%float)]
    = Return ("happy", 0.1%float) /\
  (exists p q,
     ["happy"; "sad"] = p ++ "happy" :: q /\
     ("happy" ∉ p) /\
     (forall y, y ∈ p ->
        (occurrences ["happy"; "sad"] y < occurrences ["happy"; "sad"] "happy")%nat) /\
     (forall y, y ∈ q ->
        (occurrences ["happy"; "sad"] y <= occurrences ["happy"; "sad"] "happy")%nat)) /\
  size (grid 100 100) <> 0%nat /\
  classify (steady sad_happy_tie) (grid 100 100)
    {| self := with_previous_emotions init ["angry"; "angry"]; trace := [] |}
    = (Return (twice sad_happy_tie),
       {| self := with_previous_emotions init ["angry"; "angry"];
          trace := trace seen |}) /\
  dominant_pick init (twice sad_happy_tie) = Return ("sad", 60%float) /\
  analyze_emotion (steady sad_happy_tie) (Some (grid 100 100))
    {| self := with_previous_emotions init ["angry"; "angry"]; trace := [] |}
    = (Return ("angry",
               PrimFloat.div (mean_score (twice sad_happy_tie) "angry") 100%float),
       {| self := with_previous_emotions init ["angry"; "sad"]; trace := trace seen |}).
Proof.
  assert (Hne : ["happy"; "sad"] <> []) by discriminate.
  assert (Hs : smooth ["happy"; "sad"] ("sad", 30%float)
                 [("happy", 10%float); ("sad", 25%float)]
               = Return ("happy", 0.1%float)) by (vm_compute; reflexivity).
  assert (Hsize : size (grid 100 100) <> 0%nat) by (apply grid_not_empty; lia).
  assert (Hc : classify (steady sad_happy_tie) (grid 100 100)
                 {| self := with_previous_emotions init ["angry"; "angry"]; trace := [] |}
               = (Return (twice sad_happy_tie),
                  {| self := with_previous_emotions init ["angry"; "angry"];
                     trace := trace seen |})) by (vm_compute; reflexivity).
  assert (Hr : twice sad_happy_tie <> []) by discriminate.
  assert (Hd : dominant_pick init (twice sad_happy_tie) = Return ("sad", 60%float))
    by (vm_compute; reflexivity).
  assert (HA : "angry" ∈ emotions init) by (simpl; repeat constructor).
  assert (Hn : "angry" <> "neutral") by discriminate.
  split; [exact Hne|]. split; [exact Hs|].
  split; [exact (proj1 smoothed_label_most_frequent _ _ _ _ _ Hne Hs)|].
  split; [exact Hsize|]. split; [exact Hc|]. split; [exact Hd|].
  exact (proj2 (proj2 (proj2 (proj2 (proj2
           (proj1 (proj2 (proj2 (proj2 smoothed_label_most_frequent)))
              (steady sad_happy_tie) (grid 100 100)
              {| self := with_previous_emotions init ["angry"; "angry"]; trace := [] |}
              (twice sad_happy_tie)
              {| self := with_previous_emotions init ["angry"; "angry"];
                 trace := trace seen |}
              ("sad", 60%float) "angry"
              Hsize Hc Hr Hd eq_refl eq_refl))) HA)) Hn).
Defined.

(** C5.  On binary64 floats, as the program computes.  In a call that
    collects at least one result and returns normally, the reported
    confidence is the mean of the raw scores of the returned label over the
    collected results, divided by 100: no weight enters it.  The weights enter
    the dominant pick only: it is an item of the means times the weights, it
    is what the history receives, and, no weighted score being a NaN, it is
    the first item of largest weighted score.  No weighted score is a NaN
    when every raw score is a number not below 0 and every weight a number
    above 0 and below infinity, as the constructor's weights are.  The mean is
    the sum from 0 of the raw scores, 0 for a missing label, over the number
    of results.  With
    scores sad 50 and happy 50 the pick is sad, with weighted score 60, and the
    call returns sad with confidence 0.5, not 0.6; with disgust 11 and fear 12
    the float products differ and the call returns fear. *)
Theorem confidence_is_float_mean :
  (forall env img w results w1 label conf w',
     size img <> 0%nat ->
     classify env img w = (Return results, w1) ->
     results <> [] ->
     analyze_body env (Some img) w = (Return (label, conf), w') ->
     let weighted :=
       weigh (emotion_weights (self w)) (average_scores (emotions (self w)) results) in
     analyze_emotion env (Some img) w = (Return (label, conf), w') /\
     label ∈ emotions (self w) /\
     conf = PrimFloat.div (mean_score results label) 100%float /\
     exists d,
       dominant_pick (self w) results = Return d /\
       d ∈ weighted /\
       snd d = PrimFloat.mul (mean_score results (fst d))
                 (default 1.0%float (emotion_weights (self w) !! fst d)) /\
       previous_emotions (self w') =
         push_history (smooth_window (self w)) (previous_emotions (self w)) (fst d) /\
       (no_nan weighted ->
        exists before after,
          weighted = before ++ d :: after /\
          (forall x, x ∈ before -> PrimFloat.ltb (snd x) (snd d) = true) /\
          (forall x, x ∈ after -> PrimFloat.ltb (snd d) (snd x) = false)) /\
       (nonneg_scores results -> positive_weights (emotion_weights (self w)) ->
        no_nan weighted)) /\
  positive_weights (emotion_weights init) /\
  (forall (r : scores) k,
     mean_score [r] k
     = PrimFloat.div (PrimFloat.add 0%float (default 0%float (r !! k))) 1%float) /\
  (forall (r1 r2 : scores) k,
     mean_score [r1; r2] k
     = PrimFloat.div
         (PrimFloat.add (PrimFloat.add 0%float (default 0%float (r1 !! k)))
            (default 0%float (r2 !! k)))
         2%float) /\
  (dominant_pick init (twice sad_happy_tie) = Return ("sad", 60%float) /\
   analyze_emotion (steady sad_happy_tie) (Some (grid 100 100)) fresh
     = (Return ("sad", 0.5%float),
        {| self := with_previous_emotions init ["sad"]; trace := trace seen |}) /\
   0.5%float <> 0.6%float) /\
  analyze_emotion (steady disgust_fear) (Some (grid 100 100)) fresh
    = (Return ("fear", 0.12%float),
       {| self := with_previous_emotions init ["fear"]; trace := trace seen |}).
Proof.
  split; [|split; [exact float_init_weights|split; [|split; [|split]]]].
  - intros env img w results w1 label conf w' Hsize Hc Hne Hbody weighted.
    split; [now rewrite float_analyze_emotion_eq, Hbody|].
    destruct (dominant_pick (self w) results) as [d|e] eqn:Hd.
    2:{ pose proof (float_keeps_classify env img w) as Hself. rewrite Hc in Hself.
        simpl in Hself. unfold analyze_body, bind in Hbody.
        destruct (decide (size img = 0%nat)); [contradiction|].
        rewrite Hc in Hbody. destruct results; [contradiction|].
        rewrite float_stabilize_eq, Hself, Hd in Hbody. discriminate. }
    rewrite (float_analyze_body_picked _ _ _ _ _ _ Hsize Hc Hne Hd) in Hbody.
    cbv zeta in Hbody.
    destruct (smooth _ d _) as [s|e] eqn:Hs; [|discriminate].
    injection Hbody as Hr Hw'.
    assert (Hlabel : exists v, (label, v) ∈ average_scores (emotions (self w)) results
                               /\ conf = PrimFloat.div v 100%float).
    { apply float_smooth_elem in Hs as (v & Hv & Hsv).
      destruct (float_subtle_check_cases (average_scores (emotions (self w)) results) s)
        as [[Hsame _]|(next & Hnext & _ & _ & Hm & _)].
      - rewrite Hsame in Hr. injection Hr as ->. now exists v.
      - rewrite Hnext in Hr. injection Hr as <- <-. exists (snd next).
        split; [|reflexivity]. apply py_max_elem, list_elem_of_filter in Hm as [_ Hm].
        now destruct next. }
    destruct Hlabel as (v & Hv & ->).
    apply float_average_scores_elem in Hv as [Hl ->].
    split; [exact Hl|]. split; [reflexivity|].
    exists d. split; [reflexivity|].
    assert (Hin : d ∈ weighted) by (apply (py_max_elem _ _ _ Hd)).
    split; [exact Hin|]. split.
    + apply float_weigh_elem in Hin as (a & Ha & ->).
      now apply float_average_scores_elem in Ha as [_ ->].
    + split; [now rewrite <- Hw'|].
      split; [intros Hnan; now apply float_max_split|].
      intros Hraw Hweights. unfold weighted.
      apply float_weighted_no_nan; [|exact Hraw|exact Hweights].
      exact (float_collected_length _ _ _ _ _ Hc Hne).
  - reflexivity.
  - reflexivity.
  - split; [vm_compute; reflexivity|]. split; [vm_compute; reflexivity|].
    intros H. apply (f_equal (fun x => PrimFloat.ltb x 0.6%float)) in H.
    vm_compute in H. discriminate.
  - vm_compute. reflexivity.
Qed.

Lemma confidence_is_float_mean_witness :
  size (grid 100 100) <> 0%nat /\
  classify (steady sad_happy_tie) (grid 100 100) fresh
    = (Return (twice sad_happy_tie), seen) /\
  twice sad_happy_tie <> [] /\
  analyze_body (steady sad_happy_tie) (Some (grid 100 100)) fresh
    = (Return ("sad", 0.5%float),
       {| self := with_previous_emotions init ["sad"]; trace := trace seen |}) /\
  no_nan (weigh (emotion_weights init)
            (average_scores (emotions init) (twice sad_happy_tie))) /\
  0.5%float = PrimFloat.div (mean_score (twice sad_happy_tie) "sad") 100%float.
Proof.
  assert (Hsize : size (grid 100 100) <> 0%nat) by (apply grid_not_empty; lia).
  assert (Hc : classify (steady sad_happy_tie) (grid 100 100) fresh
               = (Return (twice sad_happy_tie), seen)) by (vm_compute; reflexivity).
  assert (Hne : twice sad_happy_tie <> []) by discriminate.
  assert (Hb : analyze_body (steady sad_happy_tie) (Some (grid 100 100)) fresh
               = (Return ("sad", 0.5%float),
                  {| self := with_previous_emotions init ["sad"];
                     trace := trace seen |})) by (vm_compute; reflexivity).
  assert (Hnan : no_nan (weigh (emotion_weights init)
                           (average_scores (emotions init) (twice sad_happy_tie))))
    by (apply no_nan_check; vm_compute; reflexivity).
  split; [exact Hsize|]. split; [exact Hc|]. split; [exact Hne|]. split; [exact Hb|].
  split; [exact Hnan|].
  exact (proj1 (proj2 (proj2
    (proj1 confidence_is_float_mean _ _ _ _ _ _ _ _ Hsize Hc Hne Hb)))).
Defined.

(** C2.  On binary64 floats, as the program computes.  When the smoothed
    label is neutral with a confidence below 0.6 and no averaged score is a
    NaN: if some label other than neutral has an averaged score above 20, the
    call returns a label other than neutral of largest averaged score, with
    that unweighted averaged score over 100; if none has, it returns the
    smoothed pair unchanged.  Either way the history holds the candidate
    picked before the check.  No averaged score of a call is a NaN when every
    raw score is a number not below 0.  Scores neutral 55, sad 25 and small others give
    (sad, 0.25) on a fresh analyzer and the history [neutral]; two attempts
    with sad at 20.000000000000004 and at 20 average to 20.0, which is not
    above 20, and give (neutral, 0.5); a neutral score of 59.99999999999999
    over 100 is the float 0.6, which is not below 0.6, and with sad at 25 the
    call gives (neutral, 0.6). *)
Theorem neutral_override_on_floats :
  (forall env img w results w1 d conf,
     size img <> 0%nat ->
     classify env img w = (Return results, w1) ->
     results <> [] ->
     let obj := self w in
     let avg := average_scores (emotions obj) results in
     let hist := push_history (smooth_window obj) (previous_emotions obj) (fst d) in
     dominant_pick obj results = Return d ->
     smooth hist d avg = Return ("neutral", conf) ->
     PrimFloat.ltb conf 0.6%float = true ->
     no_nan avg ->
     exists r w',
       analyze_emotion env (Some img) w = (Return r, w') /\
       previous_emotions (self w') = hist /\
       ((exists x, x ∈ avg /\ fst x <> "neutral" /\
                   PrimFloat.ltb 20%float (snd x) = true) ->
        exists next,
          r = (fst next, PrimFloat.div (snd next) 100%float) /\
          next ∈ avg /\ fst next <> "neutral" /\
          PrimFloat.ltb 20%float (snd next) = true /\
          (forall x, x ∈ avg -> fst x <> "neutral" ->
                     PrimFloat.ltb (snd next) (snd x) = false) /\
          snd next = mean_score results (fst next)) /\
       ((forall x, x ∈ avg -> fst x <> "neutral" ->
                   PrimFloat.ltb 20%float (snd x) = false) ->
        r = ("neutral", conf))) /\
  (forall env img w results w1,
     classify env img w = (Return results, w1) ->
     results <> [] ->
     nonneg_scores results ->
     no_nan (average_scores (emotions (self w)) results)) /\
  analyze_emotion (steady mostly_neutral) (Some (grid 100 100)) fresh
    = (Return ("sad", 0.25%float),
       {| self := with_previous_emotions init ["neutral"]; trace := trace seen |}) /\
  analyze_emotion (two_answers near_twenty_first near_twenty_second)
      (Some (grid 100 100)) fresh
    = (Return ("neutral", 0.5%float),
       {| self := with_previous_emotions init ["neutral"]; trace := trace seen |}) /\
  (PrimFloat.div 59.99999999999999%float 100%float = 0.6%float /\
   analyze_emotion (steady just_below_sixty) (Some (grid 100 100)) fresh
     = (Return ("neutral", 0.6%float),
        {| self := with_previous_emotions init ["neutral"]; trace := trace seen |})).
Proof.
  split; [|split; [|split; [|split; [|split]]; vm_compute; reflexivity]].
  2:{ intros env img w results w1 Hc Hne Hraw. apply float_average_no_nan; [|exact Hraw].
      exact (float_collected_length _ _ _ _ _ Hc Hne). }
  intros env img w results w1 d conf Hsize Hc Hne obj avg hist Hd Hs Hconf Hnan.
  rewrite float_analyze_emotion_eq,
    (float_analyze_body_picked _ _ _ _ _ _ Hsize Hc Hne Hd).
  cbv zeta. fold obj avg hist. rewrite Hs.
  set (others := filter (fun item : string * float => fst item <> "neutral") avg).
  assert (Hothers : forall x, x ∈ others <-> x ∈ avg /\ fst x <> "neutral").
  { intros x. unfold others. rewrite list_elem_of_filter. tauto. }
  assert (Hnan' : no_nan others).
  { intros x Hx. apply Hnan. now apply Hothers. }
  destruct (float_subtle_check_cases avg ("neutral", conf))
    as [[Hr Hlow]|(next & Hr & _ & _ & Hm & H20)]; rewrite Hr.
  - eexists _, _. split; [reflexivity|]. split; [reflexivity|]. split; [|reflexivity].
    intros (x & Hx & Hxn & Hx20). exfalso.
    assert (Hxo : x ∈ others) by (apply Hothers; auto).
    destruct (py_max_nonempty by_value others) as [next Hm];
      [intros Hnil; rewrite Hnil in Hxo; inversion Hxo|].
    specialize (Hlow eq_refl Hconf next Hm).
    pose proof (float_max_upper _ _ _ Hnan' Hm Hxo) as Hle.
    assert (Hnext : PrimFloat.is_nan (snd next) = false)
      by (apply Hnan'; apply (py_max_elem _ _ _ Hm)).
    rewrite (float_ltb_negtrans _ _ _ Hnext Hlow Hle) in Hx20. discriminate.
  - eexists _, _. split; [reflexivity|]. split; [reflexivity|]. split.
    + intros _. exists next.
      assert (Hin : next ∈ others) by (apply (py_max_elem _ _ _ Hm)).
      apply Hothers in Hin as [Hin Hnn].
      split; [reflexivity|]. split; [exact Hin|]. split; [exact Hnn|].
      split; [exact H20|]. split.
      * intros x Hx Hxn. apply (float_max_upper _ _ _ Hnan' Hm). now apply Hothers.
      * destruct next as [k v]. now apply float_average_scores_elem in Hin as [_ ->].
    + intros Hall. exfalso.
      assert (Hin : next ∈ others) by (apply (py_max_elem _ _ _ Hm)).
      apply Hothers in Hin as [Hin Hnn]. rewrite (Hall _ Hin Hnn) in H20. discriminate.
Qed.

Lemma neutral_override_on_floats_witness :
  size (grid 100 100) <> 0%nat /\
  classify (steady mostly_neutral) (grid 100 100) fresh
    = (Return (twice mostly_neutral), seen) /\
  twice mostly_neutral <> [] /\
  dominant_pick (self fresh) (twice mostly_neutral) = Return ("neutral", 44%float) /\
  smooth (push_history 2 [] "neutral") ("neutral", 44%float)
    (average_scores (emotions init) (twice mostly_neutral))
    = Return ("neutral", 0.55%float) /\
  PrimFloat.ltb 0.55%float 0.6%float = true /\
  no_nan (average_scores (emotions init) (twice mostly_neutral)) /\
  exists r w',
    analyze_emotion (steady mostly_neutral) (Some (grid 100 100)) fresh = (Return r, w') /\
    previous_emotions (self w') = push_history 2 [] "neutral".
Proof.
  assert (Hsize : size (grid 100 100) <> 0%nat) by (apply grid_not_empty; lia).
  assert (Hc : classify (steady mostly_neutral) (grid 100 100) fresh
               = (Return (twice mostly_neutral), seen)) by (vm_compute; reflexivity).
  assert (Hne : twice mostly_neutral <> []) by discriminate.
  assert (Hd : dominant_pick (self fresh) (twice mostly_neutral)
               = Return ("neutral", 44%float)) by (vm_compute; reflexivity).
  assert (Hs : smooth (push_history 2 [] "neutral") ("neutral", 44%float)
                 (average_scores (emotions init) (twice mostly_neutral))
               = Return ("neutral", 0.55%float)) by (vm_compute; reflexivity).
  assert (Hconf : PrimFloat.ltb 0.55%float 0.6%float = true) by (vm_compute; reflexivity).
  assert (Hnan : no_nan (average_scores (emotions init) (twice mostly_neutral)))
    by (apply no_nan_check; vm_compute; reflexivity).
  split; [exact Hsize|]. split; [exact Hc|]. split; [exact Hne|]. split; [exact Hd|].
  split; [exact Hs|]. split; [exact Hconf|]. split; [exact Hnan|].
  destruct (proj1 neutral_override_on_floats (steady mostly_neutral) (grid 100 100)
              fresh (twice mostly_neutral) seen ("neutral", 44%float) 0.55%float
              Hsize Hc Hne Hd Hs Hconf Hnan)
    as (r & w' & Hr & Hh & _).
  exists r, w'. split; [exact Hr|exact Hh].
Defined.

Lemma float_weigh_keys weights avg : (weigh weights avg).*1 = avg.*1.
Proof.
  unfold weigh. induction avg as [|[k v] avg IH]; csimpl; [reflexivity|].
  now rewrite <- IH.
Qed.

Lemma float_average_scores_init results :
  average_scores (emotions init) results
  = map (fun k => (k, mean_score results k)) (emotions init).
Proof. reflexivity. Qed.

(** X13.  On binary64 floats, as the program computes.  Neutral stands last
    in the label list and the first maximum wins, so neutral wins no tie: with
    the constructor's label list and no weighted score a NaN, neutral is the
    dominant candidate only when its weighted averaged score is strictly above
    the weighted averaged score of every other label.  No weighted score is
    a NaN when the one or two results hold numbers not below 0 and every
    weight is a number above 0 and below infinity.  With sad 16 and
    neutral 24 the float products are 19.2 and 19.200000000000003, and
    neutral is the candidate. *)
Theorem neutral_wins_no_float_tie :
  (forall obj results d k,
     emotions obj = emotions init ->
     no_nan (weigh (emotion_weights obj) (average_scores (emotions obj) results)) ->
     dominant_pick obj results = Return d ->
     fst d = "neutral" ->
     k ∈ emotions init -> k <> "neutral" ->
     PrimFloat.ltb
       (PrimFloat.mul (mean_score results k)
          (default 1.0%float (emotion_weights obj !! k)))
       (PrimFloat.mul (mean_score results "neutral")
          (default 1.0%float (emotion_weights obj !! "neutral")))
     = true) /\
  (forall obj results,
     (0 < length results <= 2)%nat ->
     nonneg_scores results ->
     positive_weights (emotion_weights obj) ->
     no_nan (weigh (emotion_weights obj) (average_scores (emotions obj) results))) /\
  dominant_pick init (twice [("sad", 16%float); ("neutral", 24%float)])
    = Return ("neutral", 19.200000000000003%float).
Proof.
  split; [|split; [|vm_compute; reflexivity]].
  2:{ intros obj results Hlen Hraw Hweights. now apply float_weighted_no_nan. }
  intros obj results d k Hem Hnan Hd Hn Hk Hkn.
  unfold dominant_pick in Hd. rewrite Hem in Hd, Hnan.
  destruct (float_max_split _ _ Hnan Hd) as (l1 & l2 & Hsplit & Hlt & _).
  assert (Hkeys : l1.*1 ++ "neutral" :: l2.*1
                  = ["angry"; "disgust"; "fear"; "happy"; "sad"; "surprise"] ++ ["neutral"]).
  { transitivity ((l1 ++ d :: l2).*1);
      [rewrite fmap_app, fmap_cons, Hn; reflexivity|].
    rewrite <- Hsplit, float_weigh_keys, float_average_scores_init. reflexivity. }
  apply last_of_split in Hkeys as [_ Hl1]; [|exact label_keys_NoDup].
  assert (Hin : k ∈ l1.*1).
  { rewrite Hl1. simpl in Hk.
    repeat (apply elem_of_cons in Hk as [->|Hk];
            [first [congruence | repeat constructor]|]).
    inversion Hk. }
  apply elem_keys in Hin as [v Hv].
  assert (Hv' : (k, v) ∈ weigh (emotion_weights obj)
                  (average_scores (emotions init) results))
    by (rewrite Hsplit; apply elem_of_app; now left).
  assert (Hd' : d ∈ weigh (emotion_weights obj)
                  (average_scores (emotions init) results))
    by (rewrite Hsplit; apply elem_of_app; right; left).
  apply Hlt in Hv. simpl in Hv.
  apply float_weigh_elem in Hv' as (a & Ha & Hva).
  apply float_weigh_elem in Hd' as (b & Hb & Hvb).
  apply float_average_scores_elem in Ha as [_ ->].
  apply float_average_scores_elem in Hb as [_ ->].
  simpl in Hva. rewrite Hn in Hvb. now rewrite <- Hva, <- Hvb.
Qed.

Lemma neutral_wins_no_float_tie_witness :
  no_nan (weigh (emotion_weights init)
            (average_scores (emotions init) (twice mostly_neutral))) /\
  dominant_pick init (twice mostly_neutral) = Return ("neutral", 44%float) /\
  "sad" ∈ emotions init /\ "sad" <> "neutral" /\
  PrimFloat.ltb
    (PrimFloat.mul (mean_score (twice mostly_neutral) "sad")
       (default 1.0%float (emotion_weights init !! "sad")))
    (PrimFloat.mul (mean_score (twice mostly_neutral) "neutral")
       (default 1.0%float (emotion_weights init !! "neutral")))
  = true.
Proof.
  assert (Hnan : no_nan (weigh (emotion_weights init)
                           (average_scores (emotions init) (twice mostly_neutral))))
    by (apply no_nan_check; vm_compute; reflexivity).
  assert (Hd : dominant_pick init (twice mostly_neutral)
               = Return ("neutral", 44%float)) by (vm_compute; reflexivity).
  assert (Hk : "sad" ∈ emotions init) by (simpl; repeat constructor).
  assert (Hkn : "sad" <> "neutral") by discriminate.
  split; [exact Hnan|]. split; [exact Hd|]. split; [exact Hk|]. split; [exact Hkn|].
  exact (proj1 neutral_wins_no_float_tie init (twice mostly_neutral)
           ("neutral", 44%float) "sad" eq_refl Hnan Hd eq_refl Hk Hkn).
Defined.

End Binary64.
